(** * casschecker: framing and exchange layer of a minimal CQL client

    A shallow embedding of [casschecker.py]: the value encoders, the
    nine-byte frame header, the [Payload] / [Request] / [Response]
    classes and [send_request].  Python integers are [Z], [bytes] are
    lists of [Byte.byte], [str] is a list of code points, exceptions are
    an error result, and the two pieces of mutable state (the class
    attribute [Request.__current_stream] and the socket) are threaded
    explicitly. *)

From Stdlib Require Import ZArith List Lia Bool String Ascii FinFun.
From Stdlib Require Import Strings.Byte DecimalString HexadecimalString.
Import ListNotations.
Local Open Scope Z_scope.

(** ** Exceptions and the error result *)

Inductive exn : Type :=
| struct_error          (* struct.error *)
| ValueError
| UnicodeEncodeError
| UnicodeDecodeError.

Inductive result (A : Type) : Type :=
| Ok (a : A)
| Raise (e : exn).
Arguments Ok {A} a.
Arguments Raise {A} e.

Definition bind {A B : Type} (m : result A) (k : A -> result B) : result B :=
  match m with
  | Ok a => k a
  | Raise e => Raise e
  end.

Declare Scope py_scope.
Delimit Scope py_scope with py.
Notation "x <- m ;; k" := (bind m (fun x => k))
  (at level 61, m at next level, right associativity) : py_scope.
Local Open Scope py_scope.

(** ** bytes *)

Definition bytes := list byte.

(** [len(b)] as a Python integer. *)
Definition len {A : Type} (l : list A) : Z := Z.of_nat (List.length l).

Definition byte_val (b : byte) : Z := Z.of_N (Byte.to_N b).

Definition mk_byte (z : Z) : byte :=
  match Byte.of_N (Z.to_N z) with
  | Some b => b
  | None => x00
  end.

(** ** The [struct] module, for the format characters the program uses

    Every format string of the program starts with [!]: network byte
    order, standard sizes, no padding. *)

Module struct.

Inductive code : Type :=
| B   (* unsigned char,  1 byte  *)
| h   (* signed short,   2 bytes *)
| i.  (* signed int,     4 bytes *)

Definition size (c : code) : nat :=
  match c with
  | B => 1
  | h => 2
  | i => 4
  end%nat.

Definition lo (c : code) : Z :=
  match c with
  | B => 0
  | h => -32768
  | i => -2147483648
  end.

Definition hi (c : code) : Z :=
  match c with
  | B => 255
  | h => 32767
  | i => 2147483647
  end.

Definition signed (c : code) : bool :=
  match c with
  | B => false
  | h | i => true
  end.

Definition calcsize (fmt : list code) : nat :=
  fold_right (fun c n => (size c + n)%nat) 0%nat fmt.

(** The [n] low-order bytes of [v] in two's complement, most
    significant first. *)
Fixpoint be_bytes (n : nat) (v : Z) : bytes :=
  match n with
  | O => []
  | S k => mk_byte ((v / 256 ^ Z.of_nat k) mod 256) :: be_bytes k v
  end.

(** The unsigned value of a big-endian byte string. *)
Definition be_value (bs : bytes) : Z :=
  fold_left (fun acc b => acc * 256 + byte_val b) bs 0.

Definition pack1 (c : code) (v : Z) : result bytes :=
  if (lo c <=? v) && (v <=? hi c)
  then Ok (be_bytes (size c) v)
  else Raise struct_error.

Definition unpack1 (c : code) (bs : bytes) : Z :=
  let u := be_value bs in
  if signed c && (hi c <? u) then u - 256 ^ Z.of_nat (size c) else u.

(** [struct.pack(fmt, v1, v2, ...)]: a value out of the range of its
    format character, or a wrong number of values, raises
    [struct.error]. *)
Fixpoint pack (fmt : list code) (vs : list Z) : result bytes :=
  match fmt, vs with
  | [], [] => Ok []
  | c :: fmt', v :: vs' =>
      b <- pack1 c v ;;
      rest <- pack fmt' vs' ;;
      Ok (b ++ rest)
  | _, _ => Raise struct_error
  end.

Fixpoint unpack_fields (fmt : list code) (buf : bytes) : list Z :=
  match fmt with
  | [] => []
  | c :: fmt' =>
      unpack1 c (firstn (size c) buf) :: unpack_fields fmt' (skipn (size c) buf)
  end.

(** [struct.unpack(fmt, buffer)]: the buffer must have exactly
    [calcsize(fmt)] bytes. *)
Definition unpack (fmt : list code) (buf : bytes) : result (list Z) :=
  if Nat.eqb (List.length buf) (calcsize fmt)
  then Ok (unpack_fields fmt buf)
  else Raise struct_error.

End struct.

Definition _HEADER_FORMAT : list struct.code :=
  [struct.B; struct.B; struct.h; struct.B; struct.i].

(** ** str and the UTF-8 codec

    A Python [str] is a sequence of code points in [0, 0x10FFFF]; lone
    surrogates (U+D800..U+DFFF) may occur in a [str] and have no UTF-8
    encoding. *)

Definition str := list Z.

Definition ord (a : ascii) : Z := Z.of_N (N_of_ascii a).

(** A string literal of the source as a [str]. *)
Definition lit (s : string) : str := map ord (list_ascii_of_string s).

(** [data.encode(encoding='utf-8')] for one code point. *)
Definition utf8_encode_char (c : Z) : result bytes :=
  if c <? 0 then Raise UnicodeEncodeError
  else if c <? 0x80 then Ok [mk_byte c]
  else if c <? 0x800 then
    Ok [mk_byte (0xC0 + c / 64); mk_byte (0x80 + c mod 64)]
  else if c <? 0x10000 then
    if (0xD800 <=? c) && (c <=? 0xDFFF) then Raise UnicodeEncodeError
    else Ok [mk_byte (0xE0 + c / 4096);
             mk_byte (0x80 + (c / 64) mod 64);
             mk_byte (0x80 + c mod 64)]
  else if c <? 0x110000 then
    Ok [mk_byte (0xF0 + c / 262144);
        mk_byte (0x80 + (c / 4096) mod 64);
        mk_byte (0x80 + (c / 64) mod 64);
        mk_byte (0x80 + c mod 64)]
  else Raise UnicodeEncodeError.

Fixpoint str_encode (s : str) : result bytes :=
  match s with
  | [] => Ok []
  | c :: s' =>
      b <- utf8_encode_char c ;;
      rest <- str_encode s' ;;
      Ok (b ++ rest)
  end.

Definition is_cont (b : byte) : bool :=
  (0x80 <=? byte_val b) && (byte_val b <=? 0xBF).

(** Range of the second byte after lead byte [v0]: it excludes overlong
    forms, surrogates and code points above U+10FFFF. *)
Definition second_ok (v0 : Z) (b1 : byte) : bool :=
  ((if v0 =? 0xE0 then 0xA0 else if v0 =? 0xF0 then 0x90 else 0x80) <=? byte_val b1)
  && (byte_val b1 <=? (if v0 =? 0xED then 0x9F else if v0 =? 0xF4 then 0x8F else 0xBF)).

(** [bs.decode(encoding='utf-8')], strict error handling. *)
Fixpoint bytes_decode (bs : bytes) : result str :=
  match bs with
  | [] => Ok []
  | b0 :: r0 =>
      let v0 := byte_val b0 in
      if v0 <? 0x80 then
        s <- bytes_decode r0 ;; Ok (v0 :: s)
      else if (0xC2 <=? v0) && (v0 <=? 0xDF) then
        match r0 with
        | b1 :: r1 =>
            if is_cont b1 then
              s <- bytes_decode r1 ;;
              Ok ((v0 - 0xC0) * 64 + (byte_val b1 - 0x80) :: s)
            else Raise UnicodeDecodeError
        | _ => Raise UnicodeDecodeError
        end
      else if (0xE0 <=? v0) && (v0 <=? 0xEF) then
        match r0 with
        | b1 :: b2 :: r2 =>
            if second_ok v0 b1 && is_cont b2 then
              s <- bytes_decode r2 ;;
              Ok ((v0 - 0xE0) * 4096 + (byte_val b1 - 0x80) * 64
                  + (byte_val b2 - 0x80) :: s)
            else Raise UnicodeDecodeError
        | _ => Raise UnicodeDecodeError
        end
      else if (0xF0 <=? v0) && (v0 <=? 0xF4) then
        match r0 with
        | b1 :: b2 :: b3 :: r3 =>
            if second_ok v0 b1 && is_cont b2 && is_cont b3 then
              s <- bytes_decode r3 ;;
              Ok ((v0 - 0xF0) * 262144 + (byte_val b1 - 0x80) * 4096
                  + (byte_val b2 - 0x80) * 64 + (byte_val b3 - 0x80) :: s)
            else Raise UnicodeDecodeError
        | _ => Raise UnicodeDecodeError
        end
      else Raise UnicodeDecodeError
  end.

(** [str(n)] and [hex(n)] for an integer. *)
Definition str_of_int (n : Z) : str :=
  lit (DecimalString.NilZero.string_of_int (Z.to_int n)).

Definition hex (n : Z) : str :=
  (if n <? 0 then lit "-" else []) ++ lit "0x"
  ++ lit (HexadecimalString.NilZero.string_of_uint (N.to_hex_uint (Z.abs_N n))).

(** ** Enumerations *)

Module OpCode.

Inductive t : Type :=
| Startup | Register | Error | Ready | Result | Query.

Definition value (o : t) : Z :=
  match o with
  | Startup => 0x01
  | Register => 0x0b
  | Error => 0x00
  | Ready => 0x02
  | Result => 0x08
  | Query => 0x07
  end.

(** The call [OpCode(v)]: lookup by value, [ValueError] when no
    member has it. *)
Definition of_value (v : Z) : result t :=
  if v =? 0x01 then Ok Startup
  else if v =? 0x0b then Ok Register
  else if v =? 0x00 then Ok Error
  else if v =? 0x02 then Ok Ready
  else if v =? 0x08 then Ok Result
  else if v =? 0x07 then Ok Query
  else Raise ValueError.

Definition name (o : t) : string :=
  match o with
  | Startup => "Startup"
  | Register => "Register"
  | Error => "Error"
  | Ready => "Ready"
  | Result => "Result"
  | Query => "Query"
  end.

(** [str(member)] of a plain [enum.Enum]. *)
Definition to_str (o : t) : str := lit "OpCode." ++ lit (name o).

End OpCode.

Module Consistency.

Inductive t : Type :=
| Any | One | Two | Three | Quorun | All
| LocalQuorum | EachQuorum | Serial | LocalSerial | LocalOne.

Definition value (c : t) : Z :=
  match c with
  | Any => 0x0000
  | One => 0x0001
  | Two => 0x0002
  | Three => 0x0003
  | Quorun => 0x0004
  | All => 0x0005
  | LocalQuorum => 0x0006
  | EachQuorum => 0x0007
  | Serial => 0x0008
  | LocalSerial => 0x0009
  | LocalOne => 0x000A
  end.

End Consistency.

(** ** Value encoders *)

Definition byte_to_bytes (data : Z) : result bytes :=
  struct.pack [struct.B] [data].

Definition short_to_bytes (data : Z) : result bytes :=
  struct.pack [struct.h] [data].

Definition int_to_bytes (data : Z) : result bytes :=
  struct.pack [struct.i] [data].

Definition shortstr_to_bytes (data : str) : result bytes :=
  data <- str_encode data ;;
  prefix <- short_to_bytes (len data) ;;
  Ok (prefix ++ data).

Definition longstr_to_bytes (data : str) : result bytes :=
  data <- str_encode data ;;
  prefix <- int_to_bytes (len data) ;;
  Ok (prefix ++ data).

Definition consistency_to_bytes (data : Consistency.t) : result bytes :=
  short_to_bytes (Consistency.value data).

(** A [Dict[str, str]]: its items in insertion order. *)
Definition dict := list (str * str).

(** [b''.join([shortstr_to_bytes(k) + shortstr_to_bytes(v) for k, v in items])] *)
Fixpoint join_items (items : dict) : result bytes :=
  match items with
  | [] => Ok []
  | (k, v) :: rest =>
      kb <- shortstr_to_bytes k ;;
      vb <- shortstr_to_bytes v ;;
      tl <- join_items rest ;;
      Ok ((kb ++ vb) ++ tl)
  end.

Definition strstrmap_to_bytes (data : dict) : result bytes :=
  count <- short_to_bytes (len data) ;;
  items <- join_items data ;;
  Ok (count ++ items).

(** Modelled from the spec: a decoder of short strings (the
    [decodeShortString] of the round-trip property) is missing from the
    source, which only encodes them.  It reads the two-byte length
    prefix as an unsigned big-endian count, takes that many bytes and
    decodes them as UTF-8; a buffer shorter than announced is
    rejected. *)
Definition decode_shortstr (buf : bytes) : result str :=
  if (List.length buf <? 2)%nat then Raise struct_error
  else
    let n := struct.be_value (firstn 2 buf) in
    if len (skipn 2 buf) <? n then Raise struct_error
    else bytes_decode (firstn (Z.to_nat n) (skipn 2 buf)).

(** ** Payload, Request, Response *)

(** [type(self)]: the class an instance was created from. *)
Inductive klass : Type := PayloadC | RequestC | ResponseC.

Definition klass_name (k : klass) : string :=
  match k with
  | PayloadC => "Payload"
  | RequestC => "Request"
  | ResponseC => "Response"
  end.

(** The instance attributes set by [Payload.__init__]; they are private
    and exposed through read-only properties only. *)
Record Payload : Type := mkPayload {
  cls : klass;
  version : Z;
  flags : Z;
  stream : Z;
  opcode : OpCode.t;
  body : bytes;
  length : Z
}.

(** [Payload.__init__(self, version, flags, stream, opcode, body)] *)
Definition Payload_init (k : klass) (version flags stream : Z)
    (opcode : OpCode.t) (body : bytes) : Payload :=
  {| cls := k; version := version; flags := flags; stream := stream;
     opcode := opcode; body := body; length := len body |}.

(** [Payload.__bytes__] *)
Definition Payload_bytes (self : Payload) : result bytes :=
  header <- struct.pack _HEADER_FORMAT
              [version self; flags self; stream self;
               OpCode.value (opcode self); length self] ;;
  Ok (header ++ body self).

Definition nl : str := [10].

(** [Payload.__str__] *)
Definition Payload_str (self : Payload) : str :=
  lit (klass_name (cls self)) ++ lit ":" ++ nl
  ++ lit "  version: " ++ str_of_int (version self) ++ nl
  ++ lit "  flags: " ++ str_of_int (flags self) ++ nl
  ++ lit "  stream: " ++ str_of_int (stream self) ++ nl
  ++ lit "  opcode: " ++ OpCode.to_str (opcode self) ++ nl
  ++ lit "  length: " ++ str_of_int (length self).

(** [Request.__init__(self, opcode, body)], with the class attribute
    [Request.__current_stream] passed in and returned. *)
Definition Request_init (current_stream : Z) (opcode : OpCode.t) (body : bytes)
  : Payload * Z :=
  (Payload_init RequestC 0x04 0x00 current_stream opcode body,
   current_stream + 1).

(** The value of [Request.__current_stream] when the module is loaded. *)
Definition initial_stream : Z := 0x0000.

(** A run of [Request(...)] calls, in order. *)
Fixpoint Request_inits (current_stream : Z) (args : list (OpCode.t * bytes))
  : list Payload * Z :=
  match args with
  | [] => ([], current_stream)
  | (op, b) :: rest =>
      let '(r, cur) := Request_init current_stream op b in
      let '(rs, final) := Request_inits cur rest in
      (r :: rs, final)
  end.

(** [Response(version, flags, stream, opcode, body)]: [Response] inherits
    [Payload.__init__]. *)
Definition Response_init := Payload_init ResponseC.

(** [Response.__str__] *)
Definition Response_str (self : Payload) : result str :=
  additional <-
    match opcode self with
    | OpCode.Error =>
        code <- struct.unpack [struct.i] (firstn 4 (body self)) ;;
        message <- bytes_decode (skipn 6 (body self)) ;;
        Ok (nl ++ lit "  code: " ++ hex (hd 0 code) ++ nl
            ++ lit "  message: " ++ message)
    | _ => Ok []
    end ;;
  Ok (Payload_str self ++ additional).

(** [str(p)], dispatched on the class of [p]. *)
Definition to_str (p : Payload) : result str :=
  match cls p with
  | ResponseC => Response_str p
  | _ => Ok (Payload_str p)
  end.

(** ** The socket

    A connected stream socket seen from the client: [outbox] is what the
    kernel has accepted so far; [send_room] gives, for each coming
    [send] call, how many bytes the kernel will take (no entry: all of
    them); [inbox] holds the segments still to be delivered, and the
    peer has closed the connection after the last one. *)

Record socket : Type := mkSocket {
  outbox : bytes;
  send_room : list nat;
  inbox : list bytes
}.

Definition io (A : Type) : Type := socket -> result A * socket.

Definition io_bind {A B : Type} (m : io A) (k : A -> io B) : io B :=
  fun s =>
    match m s with
    | (Ok a, s') => k a s'
    | (Raise e, s') => (Raise e, s')
    end.

Definition io_lift {A : Type} (r : result A) : io A := fun s => (r, s).

Notation "x <~ m ;; k" := (io_bind m (fun x => k))
  (at level 61, m at next level, right associativity) : py_scope.

(** What one [send] call hands to the kernel. *)
Definition taken (data : bytes) (s : socket) : bytes :=
  match send_room s with
  | [] => data
  | k :: _ => firstn k data
  end.

(** [sock.send(data)]: returns the number of bytes taken. *)
Definition sock_send (data : bytes) : io Z :=
  fun s =>
    let part := taken data s in
    (Ok (len part),
     {| outbox := outbox s ++ part;
        send_room := tl (send_room s);
        inbox := inbox s |}).

(** [sock.recv(bufsize)]: at most [bufsize] bytes of the next segment,
    [b''] once the peer has closed; a negative size is a [ValueError]. *)
Definition sock_recv (bufsize : Z) : io bytes :=
  fun s =>
    if bufsize <? 0 then (Raise ValueError, s)
    else
      match inbox s with
      | [] => (Ok [], s)
      | seg :: rest =>
          let n := Z.to_nat bufsize in
          (Ok (firstn n seg),
           {| outbox := outbox s; send_room := send_room s;
              inbox := match skipn n seg with
                       | [] => rest
                       | remaining => remaining :: rest
                       end |})
      end.

(** The two lines of [send_request] that turn the header bytes into
    fields: [struct.unpack] and [OpCode(opecode)]. *)
Definition decode_header (header : bytes)
  : result (Z * Z * Z * OpCode.t * Z) :=
  fields <- struct.unpack _HEADER_FORMAT header ;;
  match fields with
  | [version; flags; stream; opecode; length] =>
      opecode <- OpCode.of_value opecode ;;
      Ok (version, flags, stream, opecode, length)
  | _ => Raise ValueError
  end.

(** [send_request(sock, payload)] *)
Definition send_request (payload : Payload) : io Payload :=
  data <~ io_lift (Payload_bytes payload) ;;
  _ <~ sock_send data ;;
  header <~ sock_recv 9 ;;
  hd <~ io_lift (decode_header header) ;;
  let '(version, flags, stream, opecode, length) := hd in
  body <~ sock_recv length ;;
  io_lift (Ok (Response_init version flags stream opecode body)).

(** The first request built by [main]. *)
Definition startup_body : result bytes :=
  strstrmap_to_bytes [(lit "CQL_VERSION", lit "3.0.0")].

Definition startup : result (Payload * Z) :=
  b <- startup_body ;;
  Ok (Request_init initial_stream OpCode.Startup b).

(** ** The session driver

    [main] after the connection is made: the connected socket, the class
    attribute [Request.__current_stream] and what has been written to
    standard output form the state; the lines typed at the prompt are
    given as a list. *)

Record world : Type := mkWorld {
  sock : socket;
  current_stream : Z;
  stdout : str
}.

Definition prog (A : Type) : Type := world -> result A * world.

(** [print(text, end=ending)] for a text already converted by [str]. *)
Definition print (text ending : str) (w : world) : world :=
  {| sock := sock w; current_stream := current_stream w;
     stdout := stdout w ++ text ++ ending |}.

(** [__send_request_with_message(sock, payload)] *)
Definition __send_request_with_message (payload : Payload) : prog unit :=
  fun w =>
    match to_str payload with
    | Raise e => (Raise e, w)
    | Ok shown =>
        let w1 := print shown nl w in
        match send_request payload (sock w1) with
        | (Raise e, s') =>
            (Raise e,
             {| sock := s'; current_stream := current_stream w1;
                stdout := stdout w1 |})
        | (Ok response, s') =>
            let w2 := {| sock := s'; current_stream := current_stream w1;
                         stdout := stdout w1 |} in
            match to_str response with
            | Raise e => (Raise e, w2)
            | Ok shown' => (Ok tt, print shown' (nl ++ nl) w2)
            end
        end
    end.

(** The argument of every [Request(OpCode.Query, ...)] call of [main]:
    [longstr_to_bytes(query) + consistency_to_bytes(Consistency.One)
     + byte_to_bytes(0)]. *)
Definition query_body (query : str) : result bytes :=
  q <- longstr_to_bytes query ;;
  c <- consistency_to_bytes Consistency.One ;;
  f <- byte_to_bytes 0 ;;
  Ok ((q ++ c) ++ f).

(** One statement pair of [main]: [r = Request(opcode, body)] followed
    by [__send_request_with_message(sock, r)]; the body is evaluated
    before the request is constructed. *)
Definition exchange (opcode : OpCode.t) (body : result bytes) : prog unit :=
  fun w =>
    match body with
    | Raise e => (Raise e, w)
    | Ok b =>
        let '(request, next) := Request_init (current_stream w) opcode b in
        __send_request_with_message request
          {| sock := sock w; current_stream := next; stdout := stdout w |}
    end.

(** How a run of [main] ends. *)
Inductive exit : Type :=
| Returned            (* the loop was left by [break] *)
| Raised (e : exn)    (* an exception of the exchange layer escaped *)
| EOFError.           (* [input] found no more lines *)

(** [query.startswith('q')] *)
Definition startswith_q (query : str) : bool :=
  match query with
  | c :: _ => c =? 113
  | [] => false
  end.

(** The [while True] loop of [main]; [input('CQL > ')] writes the prompt
    to standard output and takes the next line. *)
Fixpoint prompt_loop (lines : list str) (w : world) : exit * world :=
  let w0 := print (lit "CQL > ") [] w in
  match lines with
  | [] => (EOFError, w0)
  | query :: rest =>
      if startswith_q query then (Returned, w0)
      else
        match exchange OpCode.Query (query_body query) w0 with
        | (Ok _, w1) => prompt_loop rest w1
        | (Raise e, w1) => (Raised e, w1)
        end
  end.

(** The body of the [with] block of [main]. *)
Definition main (lines : list str) (w : world) : exit * world :=
  match exchange OpCode.Startup startup_body w with
  | (Raise e, w1) => (Raised e, w1)
  | (Ok _, w1) =>
      match exchange OpCode.Query
              (query_body (lit "SELECT * FROM system.local")) w1 with
      | (Raise e, w2) => (Raised e, w2)
      | (Ok _, w2) =>
          match exchange OpCode.Query
                  (query_body (lit "SELECT * FROM system.peers")) w2 with
          | (Raise e, w3) => (Raised e, w3)
          | (Ok _, w3) => prompt_loop lines w3
          end
      end
  end.

(** * Properties *)

(** ** Bytes and their values *)

Lemma byte_val_range (b : byte) : 0 <= byte_val b < 256.
Proof.
  unfold byte_val. pose proof (Byte.to_N_bounded b). lia.
Qed.

Lemma byte_val_mk_byte (z : Z) : 0 <= z < 256 -> byte_val (mk_byte z) = z.
Proof.
  intros Hz. unfold byte_val, mk_byte.
  destruct (Byte.of_N (Z.to_N z)) as [b|] eqn:E.
  - apply Byte.to_of_N in E. rewrite E. lia.
  - apply Byte.of_N_None_iff in E. lia.
Qed.

Lemma mk_byte_byte_val (b : byte) : mk_byte (byte_val b) = b.
Proof.
  unfold byte_val, mk_byte. rewrite N2Z.id, Byte.of_to_N. reflexivity.
Qed.

Lemma len_app {A : Type} (l1 l2 : list A) : len (l1 ++ l2) = len l1 + len l2.
Proof. unfold len. rewrite List.length_app. lia. Qed.

Lemma firstn_prefix {A : Type} (n : nat) (p d : list A) :
  List.length p = n -> firstn n (p ++ d) = p.
Proof.
  intros <-. rewrite firstn_app, Nat.sub_diag, firstn_all, firstn_O.
  apply app_nil_r.
Qed.

Lemma skipn_prefix {A : Type} (n : nat) (p d : list A) :
  List.length p = n -> skipn n (p ++ d) = d.
Proof.
  intros <-. rewrite skipn_app, Nat.sub_diag, skipn_all, skipn_O. reflexivity.
Qed.

Lemma len_nonneg {A : Type} (l : list A) : 0 <= len l.
Proof. unfold len. lia. Qed.

(** ** struct: packing and unpacking are inverse *)

Module struct_facts.
Import struct.

Lemma length_be_bytes (n : nat) (v : Z) : List.length (be_bytes n v) = n.
Proof. induction n as [|k IH]; simpl; congruence. Qed.

Lemma fold_be_value (bs : bytes) (acc : Z) :
  fold_left (fun a b => a * 256 + byte_val b) bs acc
  = acc * 256 ^ len bs + be_value bs.
Proof.
  unfold be_value. revert acc.
  induction bs as [|b bs IH]; intros acc.
  - cbn. lia.
  - cbn [fold_left]. rewrite IH, (IH (0 * 256 + byte_val b)).
    unfold len. cbn [List.length]. rewrite Nat2Z.inj_succ, Z.pow_succ_r by lia.
    ring.
Qed.

Lemma be_value_cons (b : byte) (bs : bytes) :
  be_value (b :: bs) = byte_val b * 256 ^ len bs + be_value bs.
Proof.
  unfold be_value at 1. simpl. rewrite fold_be_value. reflexivity.
Qed.

Lemma be_value_be_bytes (n : nat) (v : Z) :
  be_value (be_bytes n v) = v mod 256 ^ Z.of_nat n.
Proof.
  induction n as [|k IH].
  - simpl. unfold be_value. simpl. rewrite Z.mod_1_r. reflexivity.
  - simpl be_bytes. rewrite be_value_cons, IH.
    unfold len. rewrite length_be_bytes.
    rewrite byte_val_mk_byte by (apply Z.mod_pos_bound; lia).
    rewrite Nat2Z.inj_succ, Z.pow_succ_r by lia.
    rewrite (Z.mul_comm 256), Z.rem_mul_r by lia.
    ring.
Qed.

Lemma unpack1_pack1 (c : code) (v : Z) (b : bytes) :
  pack1 c v = Ok b -> unpack1 c b = v /\ List.length b = size c.
Proof.
  unfold pack1, unpack1. intros Hp.
  destruct ((lo c <=? v) && (v <=? hi c)) eqn:R; [|discriminate].
  injection Hp as <-. rewrite length_be_bytes. split; [|reflexivity].
  rewrite be_value_be_bytes.
  apply andb_true_iff in R. destruct R as [R1 R2].
  apply Z.leb_le in R1, R2.
  destruct c; cbn in *.
  - rewrite Z.mod_small by lia. reflexivity.
  - destruct (Z.ltb_spec 32767 (v mod 65536)) as [L|L];
      Z.to_euclidean_division_equations; lia.
  - destruct (Z.ltb_spec 2147483647 (v mod 4294967296)) as [L|L];
      Z.to_euclidean_division_equations; lia.
Qed.

Lemma pack_length (fmt : list code) (vs : list Z) (bs : bytes) :
  pack fmt vs = Ok bs -> List.length bs = calcsize fmt.
Proof.
  revert vs bs. induction fmt as [|c fmt IH]; intros [|v vs] bs; simpl;
    try discriminate.
  - intros [= <-]. reflexivity.
  - destruct (pack1 c v) as [b|] eqn:E1; simpl; [|discriminate].
    destruct (pack fmt vs) as [rest|] eqn:E2; simpl; [|discriminate].
    intros [= <-]. apply unpack1_pack1 in E1. destruct E1 as [_ E1].
    rewrite List.length_app, E1, (IH _ _ E2). reflexivity.
Qed.

Lemma unpack_fields_pack (fmt : list code) (vs : list Z) (bs : bytes) :
  pack fmt vs = Ok bs -> unpack_fields fmt bs = vs.
Proof.
  revert vs bs. induction fmt as [|c fmt IH]; intros [|v vs] bs; simpl;
    try discriminate.
  - reflexivity.
  - destruct (pack1 c v) as [b|] eqn:E1; simpl; [|discriminate].
    destruct (pack fmt vs) as [rest|] eqn:E2; simpl; [|discriminate].
    intros [= <-]. apply unpack1_pack1 in E1. destruct E1 as [E1 L1].
    rewrite <- L1. rewrite firstn_app, Nat.sub_diag, firstn_all, firstn_O, app_nil_r.
    rewrite skipn_app, Nat.sub_diag, skipn_all, skipn_O. simpl.
    rewrite E1, (IH _ _ E2). reflexivity.
Qed.

Lemma unpack_pack (fmt : list code) (vs : list Z) (bs : bytes) :
  pack fmt vs = Ok bs -> unpack fmt bs = Ok vs.
Proof.
  intros Hp. unfold unpack.
  rewrite (pack_length _ _ _ Hp), Nat.eqb_refl, (unpack_fields_pack _ _ _ Hp).
  reflexivity.
Qed.

(** Packing succeeds exactly when every value is in the range of its
    format character. *)
Lemma pack1_in_range (c : code) (v : Z) :
  lo c <= v <= hi c -> pack1 c v = Ok (be_bytes (size c) v).
Proof.
  intros R. unfold pack1.
  destruct (Z.leb_spec (lo c) v); [|lia].
  destruct (Z.leb_spec v (hi c)); [|lia]. reflexivity.
Qed.

Lemma pack1_out_of_range (c : code) (v : Z) :
  v < lo c \/ hi c < v -> pack1 c v = Raise struct_error.
Proof.
  intros R. unfold pack1.
  destruct (Z.leb_spec (lo c) v); [|reflexivity].
  destruct (Z.leb_spec v (hi c)); [lia|reflexivity].
Qed.

End struct_facts.

(** ** UTF-8: decoding undoes encoding *)

Ltac euclid := Z.to_euclidean_division_equations; lia.

Ltac settle_tests :=
  repeat match goal with
    | |- context [Z.eqb ?a ?b] =>
        destruct (Z.eqb_spec a b); [try (exfalso; euclid) | try (exfalso; euclid)]
    | |- context [Z.ltb ?a ?b] =>
        destruct (Z.ltb_spec a b); [try (exfalso; euclid) | try (exfalso; euclid)]
    | |- context [Z.leb ?a ?b] =>
        destruct (Z.leb_spec a b); [try (exfalso; euclid) | try (exfalso; euclid)]
    end.

Lemma Ok_inj {A : Type} (x y : A) : Ok x = Ok y -> x = y.
Proof. intros E. injection E as E. exact E. Qed.

Ltac same_code_point c :=
  match goal with
  | |- context [Ok (?e :: _)] => replace e with c by euclid
  end; reflexivity.

Lemma bytes_decode_cons (b0 : byte) (r0 : bytes) :
  bytes_decode (b0 :: r0)
  = let v0 := byte_val b0 in
    if v0 <? 0x80 then
      s <- bytes_decode r0 ;; Ok (v0 :: s)
    else if (0xC2 <=? v0) && (v0 <=? 0xDF) then
      match r0 with
      | b1 :: r1 =>
          if is_cont b1 then
            s <- bytes_decode r1 ;;
            Ok ((v0 - 0xC0) * 64 + (byte_val b1 - 0x80) :: s)
          else Raise UnicodeDecodeError
      | _ => Raise UnicodeDecodeError
      end
    else if (0xE0 <=? v0) && (v0 <=? 0xEF) then
      match r0 with
      | b1 :: b2 :: r2 =>
          if second_ok v0 b1 && is_cont b2 then
            s <- bytes_decode r2 ;;
            Ok ((v0 - 0xE0) * 4096 + (byte_val b1 - 0x80) * 64
                + (byte_val b2 - 0x80) :: s)
          else Raise UnicodeDecodeError
      | _ => Raise UnicodeDecodeError
      end
    else if (0xF0 <=? v0) && (v0 <=? 0xF4) then
      match r0 with
      | b1 :: b2 :: b3 :: r3 =>
          if second_ok v0 b1 && is_cont b2 && is_cont b3 then
            s <- bytes_decode r3 ;;
            Ok ((v0 - 0xF0) * 262144 + (byte_val b1 - 0x80) * 4096
                + (byte_val b2 - 0x80) * 64 + (byte_val b3 - 0x80) :: s)
          else Raise UnicodeDecodeError
      | _ => Raise UnicodeDecodeError
      end
    else Raise UnicodeDecodeError.
Proof. reflexivity. Qed.

Lemma bytes_decode_encode_char (c : Z) (b rest : bytes) :
  utf8_encode_char c = Ok b ->
  bytes_decode (b ++ rest) = (s <- bytes_decode rest ;; Ok (c :: s)).
Proof.
  unfold utf8_encode_char.
  destruct (Z.ltb_spec c 0); [discriminate|].
  destruct (Z.ltb_spec c 0x80).
  { intros E; apply Ok_inj in E; subst b. cbn [app]; rewrite bytes_decode_cons; cbv beta iota zeta.
    rewrite !byte_val_mk_byte by lia.
    destruct (Z.ltb_spec c 0x80); [reflexivity | lia]. }
  destruct (Z.ltb_spec c 0x800).
  { intros E; apply Ok_inj in E; subst b.
    cbn [app]; rewrite bytes_decode_cons; cbv beta iota zeta. unfold is_cont.
    rewrite !byte_val_mk_byte by euclid.
    settle_tests. cbn [andb]. same_code_point c. }
  destruct (Z.ltb_spec c 0x10000).
  { destruct (Z.leb_spec 0xD800 c); destruct (Z.leb_spec c 0xDFFF);
      cbn [andb]; try discriminate;
      intros E; apply Ok_inj in E; subst b;
      cbn [app]; rewrite bytes_decode_cons; cbv beta iota zeta; unfold is_cont, second_ok;
      rewrite !byte_val_mk_byte by euclid;
      settle_tests; cbn [andb]; same_code_point c. }
  destruct (Z.ltb_spec c 0x110000); [|discriminate].
  intros E; apply Ok_inj in E; subst b.
  cbn [app]; rewrite bytes_decode_cons; cbv beta iota zeta. unfold is_cont, second_ok.
  rewrite !byte_val_mk_byte by euclid.
  settle_tests; cbn [andb]; same_code_point c.
Qed.

Lemma bytes_decode_str_encode (s : str) (data : bytes) :
  str_encode s = Ok data -> bytes_decode data = Ok s.
Proof.
  revert data. induction s as [|c s IH]; intros data.
  - intros E; apply Ok_inj in E; subst data. reflexivity.
  - cbn [str_encode].
    destruct (utf8_encode_char c) as [b|] eqn:Ec; cbn [bind]; [|discriminate].
    destruct (str_encode s) as [rest|] eqn:Es; cbn [bind]; [|discriminate].
    intros E; apply Ok_inj in E; subst data.
    rewrite (bytes_decode_encode_char _ _ _ Ec), (IH _ eq_refl). reflexivity.
Qed.

Lemma pack_raises_struct_error (fmt : list struct.code) (vs : list Z) (e : exn) :
  struct.pack fmt vs = Raise e -> e = struct_error.
Proof.
  revert vs. induction fmt as [|c fmt IH]; intros [|v vs]; simpl;
    try discriminate; try (intros [= <-]; reflexivity).
  unfold struct.pack1.
  destruct ((struct.lo c <=? v) && (v <=? struct.hi c)); simpl.
  - destruct (struct.pack fmt vs) as [rest|e'] eqn:E; simpl; [discriminate|].
    intros [= <-]. exact (IH _ E).
  - intros [= <-]. reflexivity.
Qed.

(** ** The counter behind the stream ids *)

Lemma Request_inits_spec (args : list (OpCode.t * bytes)) (c : Z) :
  map stream (fst (Request_inits c args))
  = map (fun n => c + Z.of_nat n) (seq 0 (List.length args))
  /\ snd (Request_inits c args) = c + len args
  /\ Forall (fun r => version r = 0x04 /\ flags r = 0x00 /\ cls r = RequestC)
       (fst (Request_inits c args)).
Proof.
  revert c. induction args as [|[op b] args IH]; intros c.
  - cbn. repeat split; [lia | constructor].
  - cbn [Request_inits Request_init].
    destruct (Request_inits (c + 1) args) as [rs final] eqn:E.
    specialize (IH (c + 1)). rewrite E in IH. cbn [fst snd] in IH.
    destruct IH as (IH1 & IH2 & IH3).
    cbn [fst snd map List.length seq]. repeat split.
    + f_equal; [cbn; lia|].
      rewrite IH1, <- seq_shift, map_map.
      apply map_ext. intros n. lia.
    + rewrite IH2. unfold len. cbn [List.length]. lia.
    + constructor; [cbn; auto | exact IH3].
Qed.

(** C1: the [length] of every [Payload] is [len(body)], and whenever
    [bytes(payload)] returns, it is a nine-byte header followed by the
    body, the header's length field being [len(body)]; it does return
    when the header fields fit their format characters. *)
Theorem Payload_length_invariant :
  forall (k : klass) (v f s : Z) (op : OpCode.t) (b : bytes),
    let p := Payload_init k v f s op b in
    length p = len b
    /\ (forall out, Payload_bytes p = Ok out ->
        exists header,
          out = header ++ b
          /\ List.length header = 9%nat
          /\ struct.unpack _HEADER_FORMAT header
             = Ok [v; f; s; OpCode.value op; len b])
    /\ (0 <= v <= 255 -> 0 <= f <= 255 -> -32768 <= s <= 32767 ->
        len b <= 2147483647 ->
        exists out, Payload_bytes p = Ok out).
Proof.
  intros k v f s op b p. split; [reflexivity|]. split.
  - intros out. unfold Payload_bytes. subst p.
    cbn [Payload_init version flags stream opcode body length].
    destruct (struct.pack _HEADER_FORMAT [v; f; s; OpCode.value op; len b])
      as [header|] eqn:E; simpl; [|discriminate].
    intros [= <-]. exists header. split; [reflexivity|]. split.
    + apply struct_facts.pack_length in E. exact E.
    + apply struct_facts.unpack_pack. exact E.
  - intros Hv Hf Hs Hb. unfold Payload_bytes. subst p.
    cbn [Payload_init version flags stream opcode body length].
    unfold _HEADER_FORMAT. cbn [struct.pack].
    pose proof (len_nonneg b) as Hb0.
    rewrite !struct_facts.pack1_in_range
      by (cbn; try lia; destruct op; cbn; lia).
    cbn [bind]. eexists. reflexivity.
Qed.

Lemma Payload_length_invariant_witness :
  length (Payload_init RequestC 4 0 0 OpCode.Query [x00; x01]) = 2
  /\ exists out,
       Payload_bytes (Payload_init RequestC 4 0 0 OpCode.Query [x00; x01]) = Ok out.
Proof.
  destruct (Payload_length_invariant RequestC 4 0 0 OpCode.Query [x00; x01])
    as (H1 & _ & H3).
  split; [exact H1|].
  apply H3; cbn; lia.
Defined.

(** C2, as amended: the Startup request built first, with the string map
    [{"CQL_VERSION": "3.0.0"}], serializes to the header
    [04 00 00 00 01 00 00 00 16] followed by the 22 body bytes. *)
Theorem startup_bytes :
  (p <- startup ;; Payload_bytes (fst p))
  = Ok ([x04; x00; x00; x00; x01; x00; x00; x00; x16]
        ++ [x00; x01; x00; x0b; x43; x51; x4c; x5f; x56; x45; x52; x53; x49;
            x4f; x4e; x00; x05; x33; x2e; x30; x2e; x30]).
Proof. vm_compute. reflexivity. Qed.

(** C2, as stated, fails: the length field of the header is not [1D]. *)
Lemma startup_bytes_not_1d :
  (p <- startup ;; Payload_bytes (fst p))
  <> Ok ([x04; x00; x00; x00; x01; x00; x00; x00; x1d]
         ++ [x00; x01; x00; x0b; x43; x51; x4c; x5f; x56; x45; x52; x53; x49;
             x4f; x4e; x00; x05; x33; x2e; x30; x2e; x30]).
Proof. vm_compute. discriminate. Qed.

(** C5: [N] constructions of a [Request], starting from a fresh counter,
    get the stream ids [0, 1, ..., N-1] in construction order, all
    different, and leave the counter at [N]; each request has version
    [0x04] and flags [0x00]. *)
Theorem Request_stream_ids :
  forall args : list (OpCode.t * bytes),
    let rs := fst (Request_inits initial_stream args) in
    map stream rs = map Z.of_nat (seq 0 (List.length args))
    /\ NoDup (map stream rs)
    /\ snd (Request_inits initial_stream args) = len args
    /\ Forall (fun r => version r = 0x04 /\ flags r = 0x00) rs.
Proof.
  intros args rs. subst rs.
  destruct (Request_inits_spec args initial_stream) as (H1 & H2 & H3).
  assert (E : map stream (fst (Request_inits initial_stream args))
              = map Z.of_nat (seq 0 (List.length args))).
  { rewrite H1. apply map_ext. intros n. unfold initial_stream. lia. }
  split; [exact E|]. split.
  - rewrite E. apply Injective_map_NoDup.
    + intros x y. apply Nat2Z.inj.
    + apply seq_NoDup.
  - split; [rewrite H2; unfold initial_stream; lia|].
    eapply Forall_impl; [|exact H3]. cbn. intros r (Hv & Hf & _). auto.
Qed.

(** C9: a [Payload] whose stream is outside [-32768, 32767] does not
    serialize: [struct.pack] raises; so the request built after 32768 or
    more earlier ones cannot be serialized. *)
Theorem stream_out_of_range_raises :
  forall (p : Payload) (prior : list (OpCode.t * bytes)) (op : OpCode.t) (b : bytes),
    (stream p < -32768 \/ 32767 < stream p) ->
    32768 <= len prior ->
    Payload_bytes p = Raise struct_error
    /\ Payload_bytes
         (fst (Request_init (snd (Request_inits initial_stream prior)) op b))
       = Raise struct_error.
Proof.
  assert (G : forall p, stream p < -32768 \/ 32767 < stream p ->
                        Payload_bytes p = Raise struct_error).
  { intros p Hs. unfold Payload_bytes.
    destruct (struct.pack _HEADER_FORMAT _) as [header|e] eqn:E.
    - exfalso. unfold _HEADER_FORMAT in E. cbn [struct.pack] in E.
      destruct (struct.pack1 struct.B (version p)); [|discriminate].
      destruct (struct.pack1 struct.B (flags p)); [|discriminate].
      rewrite (struct_facts.pack1_out_of_range struct.h (stream p)) in E
        by (cbn; lia).
      discriminate.
    - apply pack_raises_struct_error in E. subst e. reflexivity. }
  intros p prior op b Hs Hn. split; [exact (G p Hs)|].
  apply G. cbn [Request_init fst Payload_init stream].
  destruct (Request_inits_spec prior initial_stream) as (_ & H2 & _).
  rewrite H2. unfold initial_stream. lia.
Qed.

Lemma stream_out_of_range_raises_witness :
  Payload_bytes (Payload_init RequestC 4 0 32768 OpCode.Query []) = Raise struct_error
  /\ Payload_bytes
       (fst (Request_init
               (snd (Request_inits initial_stream
                       (repeat (OpCode.Query, []) (Z.to_nat 32768))))
               OpCode.Query []))
     = Raise struct_error.
Proof.
  apply stream_out_of_range_raises.
  - right. cbn. lia.
  - unfold len. rewrite repeat_length. lia.
Defined.

(** ** Short strings *)

Lemma short_to_bytes_in_range (n : Z) :
  -32768 <= n <= 32767 -> short_to_bytes n = Ok (struct.be_bytes 2 n).
Proof.
  intros R. unfold short_to_bytes. cbn [struct.pack].
  rewrite struct_facts.pack1_in_range by (cbn; lia).
  cbn [bind struct.size]. rewrite app_nil_r. reflexivity.
Qed.

Lemma short_to_bytes_out_of_range (n : Z) :
  n < -32768 \/ 32767 < n -> short_to_bytes n = Raise struct_error.
Proof.
  intros R. unfold short_to_bytes. cbn [struct.pack].
  rewrite struct_facts.pack1_out_of_range by (cbn; lia). reflexivity.
Qed.

Lemma shortstr_to_bytes_ok (s : str) (data : bytes) :
  str_encode s = Ok data -> len data <= 32767 ->
  shortstr_to_bytes s = Ok (struct.be_bytes 2 (len data) ++ data).
Proof.
  intros E L. unfold shortstr_to_bytes. rewrite E. cbn [bind].
  pose proof (len_nonneg data).
  rewrite short_to_bytes_in_range by lia. reflexivity.
Qed.

Lemma shortstr_to_bytes_overflow (s : str) (data : bytes) :
  str_encode s = Ok data -> 32767 < len data ->
  shortstr_to_bytes s = Raise struct_error.
Proof.
  intros E L. unfold shortstr_to_bytes. rewrite E. cbn [bind].
  rewrite short_to_bytes_out_of_range by lia. reflexivity.
Qed.

Lemma str_encode_repeat_a (n : nat) :
  str_encode (repeat 97 n) = Ok (repeat x61 n).
Proof.
  induction n as [|n IH]; [reflexivity|].
  cbn [repeat str_encode]. rewrite IH. reflexivity.
Qed.

(** C3, as amended: for a string with UTF-8 encoding [data], the
    short-string encoder fails if and only if [data] has more than 32767
    bytes, and then with [struct.error]; otherwise it returns a two-byte
    big-endian count of the bytes of [data], followed by [data]. *)
Theorem shortstr_to_bytes_spec :
  forall (s : str) (data : bytes),
    str_encode s = Ok data ->
    ((exists e, shortstr_to_bytes s = Raise e) <-> 32767 < len data)
    /\ (32767 < len data -> shortstr_to_bytes s = Raise struct_error)
    /\ (len data <= 32767 ->
        exists prefix,
          shortstr_to_bytes s = Ok (prefix ++ data)
          /\ List.length prefix = 2%nat
          /\ struct.be_value prefix = len data).
Proof.
  intros s data E. split; [|split].
  - split.
    + intros [e He]. destruct (Z.lt_ge_cases 32767 (len data)) as [L|L]; [exact L|].
      rewrite (shortstr_to_bytes_ok _ _ E) in He by lia. discriminate.
    + intros L. exists struct_error. exact (shortstr_to_bytes_overflow _ _ E L).
  - exact (shortstr_to_bytes_overflow _ _ E).
  - intros L. exists (struct.be_bytes 2 (len data)).
    split; [exact (shortstr_to_bytes_ok _ _ E L)|].
    split; [apply struct_facts.length_be_bytes|].
    rewrite struct_facts.be_value_be_bytes.
    pose proof (len_nonneg data). apply Z.mod_small. cbn. lia.
Qed.

Lemma shortstr_to_bytes_spec_witness :
  exists prefix,
    shortstr_to_bytes (lit "3.0.0") = Ok (prefix ++ [x33; x2e; x30; x2e; x30])
    /\ List.length prefix = 2%nat
    /\ struct.be_value prefix = 5.
Proof.
  destruct (shortstr_to_bytes_spec (lit "3.0.0") [x33; x2e; x30; x2e; x30] eq_refl)
    as (_ & _ & H).
  apply H. cbn. lia.
Defined.

(** C3, as stated, fails: 32768 letters [a] encode to 32768 bytes, which
    is no more than 65535, and the encoder raises [struct.error]. *)
Lemma shortstr_to_bytes_32768_raises :
  let s := repeat 97 (Z.to_nat 32768) in
  exists data,
    str_encode s = Ok data
    /\ len data <= 65535
    /\ shortstr_to_bytes s = Raise struct_error.
Proof.
  cbv zeta. exists (repeat x61 (Z.to_nat 32768)).
  assert (L : len (repeat x61 (Z.to_nat 32768)) = 32768).
  { unfold len. rewrite repeat_length. lia. }
  split; [apply str_encode_repeat_a|]. split; [lia|].
  apply (shortstr_to_bytes_overflow _ _ (str_encode_repeat_a _)). lia.
Qed.

(** C4, as amended: for a string whose UTF-8 encoding has at most 32767
    bytes, the short-string encoding exists and decodes (two-byte
    prefix, that many bytes, UTF-8) to the string again. *)
Theorem decode_shortstr_encode :
  forall (s : str) (data : bytes),
    str_encode s = Ok data ->
    len data <= 32767 ->
    exists enc, shortstr_to_bytes s = Ok enc /\ decode_shortstr enc = Ok s.
Proof.
  intros s data E L. exists (struct.be_bytes 2 (len data) ++ data).
  split; [exact (shortstr_to_bytes_ok _ _ E L)|].
  pose proof (len_nonneg data) as L0.
  assert (P2 : List.length (struct.be_bytes 2 (len data)) = 2%nat)
    by apply struct_facts.length_be_bytes.
  unfold decode_shortstr.
  rewrite List.length_app, P2. cbn [Nat.add Nat.ltb Nat.leb].
  rewrite (firstn_prefix 2 (struct.be_bytes 2 (len data)) data P2).
  rewrite (skipn_prefix 2 (struct.be_bytes 2 (len data)) data P2).
  rewrite struct_facts.be_value_be_bytes.
  rewrite Z.mod_small by (cbn; lia).
  rewrite Z.ltb_irrefl. unfold len. rewrite Nat2Z.id, firstn_all.
  exact (bytes_decode_str_encode _ _ E).
Qed.

Lemma decode_shortstr_encode_witness :
  exists enc,
    shortstr_to_bytes (lit "CQL_VERSION") = Ok enc
    /\ decode_shortstr enc = Ok (lit "CQL_VERSION").
Proof.
  apply (decode_shortstr_encode (lit "CQL_VERSION")
           [x43; x51; x4c; x5f; x56; x45; x52; x53; x49; x4f; x4e]).
  - reflexivity.
  - cbn. lia.
Defined.

(** C4, as stated, fails: a string of 32768 letters [a] has an encoding
    of at most 65535 bytes and no short-string encoding to decode. *)
Lemma decode_shortstr_encode_32768 :
  let s := repeat 97 (Z.to_nat 32768) in
  (exists data, str_encode s = Ok data /\ len data <= 65535)
  /\ ~ (exists enc, shortstr_to_bytes s = Ok enc /\ decode_shortstr enc = Ok s).
Proof.
  cbv zeta.
  assert (L : len (repeat x61 (Z.to_nat 32768)) = 32768).
  { unfold len. rewrite repeat_length. lia. }
  split.
  - exists (repeat x61 (Z.to_nat 32768)).
    split; [apply str_encode_repeat_a | lia].
  - intros (enc & He & _).
    rewrite (shortstr_to_bytes_overflow _ _ (str_encode_repeat_a _)) in He by lia.
    discriminate.
Qed.

(** ** Decoding a frame header *)

Lemma of_value_value (o : OpCode.t) : OpCode.of_value (OpCode.value o) = Ok o.
Proof. destruct o; reflexivity. Qed.

Lemma of_value_unknown (v : Z) :
  ~ In v [0x00; 0x01; 0x02; 0x07; 0x08; 0x0b] ->
  OpCode.of_value v = Raise ValueError.
Proof.
  intros N. unfold OpCode.of_value.
  repeat match goal with
    | |- context [Z.eqb v ?k] =>
        destruct (Z.eqb_spec v k); [exfalso; apply N; subst v; cbn; tauto|]
    end.
  reflexivity.
Qed.

Lemma of_value_known (v : Z) :
  In v [0x00; 0x01; 0x02; 0x07; 0x08; 0x0b] ->
  exists o, OpCode.of_value v = Ok o /\ OpCode.value o = v.
Proof.
  cbn [In]. intros K.
  repeat (destruct K as [<-|K];
          [eexists; split; [reflexivity|reflexivity]|]).
  contradiction.
Qed.

Lemma be_value_single (b : byte) : struct.be_value [b] = byte_val b.
Proof. unfold struct.be_value. cbn [fold_left]. lia. Qed.

(** Nine bytes always unpack; the fourth field is the opcode byte. *)
Lemma unpack_header (b0 b1 b2 b3 b4 b5 b6 b7 b8 : byte) :
  struct.unpack _HEADER_FORMAT [b0; b1; b2; b3; b4; b5; b6; b7; b8]
  = Ok [byte_val b0; byte_val b1; struct.unpack1 struct.h [b2; b3];
        byte_val b4; struct.unpack1 struct.i [b5; b6; b7; b8]].
Proof.
  unfold struct.unpack, _HEADER_FORMAT.
  cbn [List.length struct.calcsize fold_right struct.size Nat.add Nat.eqb
       struct.unpack_fields firstn skipn].
  unfold struct.unpack1 at 1 2 4.
  cbn [struct.signed andb]. rewrite !be_value_single. reflexivity.
Qed.

Lemma nine_bytes (l : bytes) :
  List.length l = 9%nat ->
  exists b0 b1 b2 b3 b4 b5 b6 b7 b8, l = [b0; b1; b2; b3; b4; b5; b6; b7; b8].
Proof.
  intros L.
  do 9 (destruct l as [|? l]; [discriminate L|]).
  destruct l; [|discriminate L].
  repeat eexists.
Qed.

Lemma decode_header_nine (header : bytes) :
  List.length header = 9%nat ->
  exists v f st l,
    decode_header header
    = (o <- OpCode.of_value (byte_val (nth 4 header x00)) ;;
       Ok (v, f, st, o, l)).
Proof.
  intros L. destruct (nine_bytes _ L) as (b0 & b1 & b2 & b3 & b4 & b5 & b6 & b7 & b8 & ->).
  unfold decode_header. rewrite unpack_header. cbn [bind nth].
  do 4 eexists. reflexivity.
Qed.

Lemma sock_send_spec (data : bytes) (s : socket) :
  exists s1,
    sock_send data s = (Ok (len (taken data s)), s1)
    /\ outbox s1 = outbox s ++ taken data s
    /\ inbox s1 = inbox s.
Proof.
  unfold sock_send. eexists. repeat split; reflexivity.
Qed.

(** [send_request] up to the decoding of the header. *)
Lemma send_request_header (payload : Payload) (data : bytes) (s : socket)
    (seg : bytes) (rest : list bytes) (e : exn) :
  Payload_bytes payload = Ok data ->
  inbox s = seg :: rest ->
  decode_header (firstn 9 seg) = Raise e ->
  fst (send_request payload s) = Raise e.
Proof.
  intros Hd Hi He. unfold send_request, io_bind, io_lift. rewrite Hd.
  destruct (sock_send_spec data s) as (s1 & Hs & _ & Hi1).
  rewrite Hs. rewrite Hi in Hi1.
  unfold sock_recv. cbn [Z.ltb Z.compare]. rewrite Hi1.
  change (Z.to_nat 9) with 9%nat. rewrite He. reflexivity.
Qed.

(** C6: a nine-byte header whose opcode byte is not the value of a
    member of [OpCode] does not decode, and [send_request] raises
    instead of returning a [Response]; a header whose opcode byte is the
    value of a member decodes to that member. *)
Theorem unknown_opcode_rejected :
  forall (payload : Payload) (data : bytes) (s : socket)
         (seg : bytes) (rest : list bytes),
    Payload_bytes payload = Ok data ->
    inbox s = seg :: rest ->
    (9 <= List.length seg)%nat ->
    let header := firstn 9 seg in
    let op := byte_val (nth 4 header x00) in
    (~ In op [0x00; 0x01; 0x02; 0x07; 0x08; 0x0b] ->
     decode_header header = Raise ValueError
     /\ fst (send_request payload s) = Raise ValueError)
    /\ (In op [0x00; 0x01; 0x02; 0x07; 0x08; 0x0b] ->
        exists v f st o l,
          decode_header header = Ok (v, f, st, o, l) /\ OpCode.value o = op).
Proof.
  intros payload data s seg rest Hd Hi L header op.
  assert (L9 : List.length header = 9%nat).
  { unfold header. rewrite List.length_firstn. lia. }
  destruct (decode_header_nine header L9) as (v & f & st & l & D).
  fold op in D. split.
  - intros N. rewrite (of_value_unknown op N) in D. cbn [bind] in D.
    split; [exact D|].
    exact (send_request_header payload data s seg rest ValueError Hd Hi D).
  - intros K. destruct (of_value_known op K) as (o & Ho & Hv).
    rewrite Ho in D. cbn [bind] in D. exists v, f, st, o, l. auto.
Qed.

Lemma unknown_opcode_rejected_witness :
  fst (send_request
         (fst (Request_init initial_stream OpCode.Query []))
         {| outbox := []; send_room := [];
            inbox := [[x84; x00; x00; x00; x03; x00; x00; x00; x00]] |})
  = Raise ValueError.
Proof.
  destruct (unknown_opcode_rejected
              (fst (Request_init initial_stream OpCode.Query []))
              [x04; x00; x00; x00; x07; x00; x00; x00; x00]
              {| outbox := []; send_room := [];
                 inbox := [[x84; x00; x00; x00; x03; x00; x00; x00; x00]] |}
              [x84; x00; x00; x00; x03; x00; x00; x00; x00] []
              eq_refl eq_refl) as [H _].
  - cbn. lia.
  - apply H. cbn. intros K.
    repeat (destruct K as [K|K]; [discriminate K|]). exact K.
Defined.

(** ** The exchange *)

Lemma sock_recv_outbox {bufsize : Z} {s : socket} :
  outbox (snd (sock_recv bufsize s)) = outbox s.
Proof.
  unfold sock_recv. destruct (bufsize <? 0); [reflexivity|].
  destruct (inbox s); reflexivity.
Qed.

(** C7, as amended: [send_request] hands the serialized request to one
    [send] call and goes on whatever part of it was taken; it reads the
    header with one [recv(9)] and the body with one [recv(length)];
    fewer than nine header bytes raise [struct.error]; a body segment
    shorter than the declared length gives a [Response] whose body is
    that segment. *)
Theorem send_request_single_calls :
  forall (payload : Payload) (data : bytes) (s : socket),
    Payload_bytes payload = Ok data ->
    outbox (snd (send_request payload s)) = outbox s ++ taken data s
    /\ (forall seg rest,
          inbox s = seg :: rest -> (List.length seg < 9)%nat ->
          fst (send_request payload s) = Raise struct_error)
    /\ (inbox s = [] -> fst (send_request payload s) = Raise struct_error)
    /\ (forall header seg rest v f st o l,
          inbox s = header :: seg :: rest ->
          List.length header = 9%nat ->
          decode_header header = Ok (v, f, st, o, l) ->
          0 <= l ->
          fst (send_request payload s)
          = Ok (Response_init v f st o (firstn (Z.to_nat l) seg))).
Proof.
  intros payload data s Hd.
  destruct (sock_send_spec data s) as (s1 & Hs & Ho & Hi).
  unfold send_request, io_bind, io_lift. rewrite Hd, Hs.
  split; [|split; [|split]].
  - destruct (sock_recv 9 s1) as [[header|e] s2] eqn:R1.
    + assert (O2 : outbox s2 = outbox s1).
      { pose proof (@sock_recv_outbox 9 s1) as O. rewrite R1 in O. exact O. }
      destruct (decode_header header) as [[[[[v f] st] o] l]|e]; cbn [snd].
      * destruct (sock_recv l s2) as [[b|e] s3] eqn:R2;
          pose proof (@sock_recv_outbox l s2) as O3; rewrite R2 in O3;
          cbn [snd] in *; congruence.
      * congruence.
    + pose proof (@sock_recv_outbox 9 s1) as O. rewrite R1 in O.
      cbn [snd] in *. congruence.
  - intros seg rest Hin L. unfold sock_recv. cbn [Z.ltb Z.compare].
    rewrite Hi, Hin. change (Z.to_nat 9) with 9%nat.
    rewrite firstn_all2 by lia.
    unfold decode_header, struct.unpack.
    replace (Nat.eqb (List.length seg) (struct.calcsize _HEADER_FORMAT)) with false.
    + reflexivity.
    + symmetry. apply Nat.eqb_neq. cbn. lia.
  - intros Hin. unfold sock_recv. cbn [Z.ltb Z.compare]. rewrite Hi, Hin.
    reflexivity.
  - intros header seg rest v f st o l Hin L D Hl.
    unfold sock_recv at 1. cbn [Z.ltb Z.compare]. rewrite Hi, Hin.
    change (Z.to_nat 9) with 9%nat.
    rewrite firstn_all2 by lia. rewrite skipn_all2 by lia. rewrite D.
    unfold sock_recv. destruct (Z.ltb_spec l 0); [lia|].
    cbn [inbox]. reflexivity.
Qed.

Lemma send_request_single_calls_witness :
  outbox (snd (send_request
                 (fst (Request_init initial_stream OpCode.Query [x00]))
                 {| outbox := []; send_room := [3%nat]; inbox := [] |}))
  = [x04; x00; x00].
Proof.
  exact (proj1 (send_request_single_calls
                  (fst (Request_init initial_stream OpCode.Query [x00]))
                  [x04; x00; x00; x00; x07; x00; x00; x00; x01; x00]
                  {| outbox := []; send_room := [3%nat]; inbox := [] |}
                  eq_refl)).
Defined.

(** C7, as stated, fails: the kernel takes three of the ten bytes of the
    request, the peer answers with a header that declares five body
    bytes, sends two of them and closes; [send_request] returns a
    [Response] with the two-byte body. *)
Lemma send_request_short_body :
  let request := fst (Request_init initial_stream OpCode.Query [x00]) in
  let s := {| outbox := []; send_room := [3%nat];
              inbox := [[x84; x00; x00; x00; x08; x00; x00; x00; x05];
                        [xaa; xbb]] |} in
  exists response s',
    send_request request s = (Ok response, s')
    /\ Payload_bytes request = Ok [x04; x00; x00; x00; x07; x00; x00; x00; x01; x00]
    /\ outbox s' = [x04; x00; x00]
    /\ body response = [xaa; xbb]
    /\ length response = 2
    /\ inbox s' = [].
Proof.
  cbv zeta. do 2 eexists.
  split; [vm_compute; reflexivity|].
  repeat split.
Qed.

(** ** The display form of an error response *)

Lemma unpack_int_firstn (b : bytes) :
  (4 <= List.length b)%nat ->
  struct.unpack [struct.i] (firstn 4 b)
  = Ok [struct.unpack1 struct.i (firstn 4 b)].
Proof.
  intros L. unfold struct.unpack.
  rewrite List.length_firstn, Nat.min_l by exact L.
  cbn [struct.calcsize fold_right struct.size Nat.add Nat.eqb
       struct.unpack_fields].
  rewrite firstn_firstn. reflexivity.
Qed.

Lemma unpack_int_short (b : bytes) :
  (List.length b < 4)%nat ->
  struct.unpack [struct.i] (firstn 4 b) = Raise struct_error.
Proof.
  intros L. unfold struct.unpack.
  rewrite List.length_firstn, Nat.min_r by lia.
  replace (Nat.eqb (List.length b) (struct.calcsize [struct.i])) with false;
    [reflexivity|].
  symmetry. apply Nat.eqb_neq. cbn. lia.
Qed.

Lemma Response_str_Error (r : Payload) :
  opcode r = OpCode.Error ->
  (4 <= List.length (body r))%nat ->
  Response_str r
  = (message <- bytes_decode (skipn 6 (body r)) ;;
     Ok (Payload_str r
         ++ nl ++ lit "  code: "
         ++ hex (struct.unpack1 struct.i (firstn 4 (body r)))
         ++ nl ++ lit "  message: " ++ message)).
Proof.
  intros Ho L. unfold Response_str. rewrite Ho, (unpack_int_firstn _ L).
  cbn [bind hd].
  destruct (bytes_decode (skipn 6 (body r))); reflexivity.
Qed.

Lemma unpack1_int_four (b0 b1 b2 b3 : byte) :
  struct.unpack1 struct.i [b0; b1; b2; b3]
  = let u := byte_val b0 * 2 ^ 24 + byte_val b1 * 2 ^ 16
             + byte_val b2 * 2 ^ 8 + byte_val b3 in
    if u <? 2 ^ 31 then u else u - 2 ^ 32.
Proof.
  unfold struct.unpack1, struct.be_value.
  cbn [fold_left struct.signed struct.hi struct.size andb]. cbv zeta.
  pose proof (byte_val_range b0). pose proof (byte_val_range b1).
  pose proof (byte_val_range b2). pose proof (byte_val_range b3).
  change (256 ^ Z.of_nat 4) with 4294967296.
  change (2 ^ 24) with 16777216. change (2 ^ 16) with 65536.
  change (2 ^ 8) with 256. change (2 ^ 31) with 2147483648.
  change (2 ^ 32) with 4294967296.
  destruct (Z.ltb_spec 2147483647
              ((((0 * 256 + byte_val b0) * 256 + byte_val b1) * 256
                + byte_val b2) * 256 + byte_val b3));
    destruct (Z.ltb_spec
                (byte_val b0 * 16777216 + byte_val b1 * 65536
                 + byte_val b2 * 256 + byte_val b3) 2147483648); lia.
Qed.

(** C8: the display form of a [Response] with opcode [Error] shows the
    first four body bytes as a signed 32-bit big-endian code, in
    hexadecimal, and the bytes after the next two as UTF-8 text; the
    body [00 00 22 00], two prefix bytes, then "Syntax error" shows code
    [0x2200] and message "Syntax error". *)
Theorem Response_str_error_code_message :
  forall (r : Payload) (b0 b1 b2 b3 : byte) (rest : bytes) (message : str),
    cls r = ResponseC ->
    opcode r = OpCode.Error ->
    body r = b0 :: b1 :: b2 :: b3 :: rest ->
    bytes_decode (skipn 2 rest) = Ok message ->
    let u := byte_val b0 * 2 ^ 24 + byte_val b1 * 2 ^ 16
             + byte_val b2 * 2 ^ 8 + byte_val b3 in
    let code := if u <? 2 ^ 31 then u else u - 2 ^ 32 in
    to_str r
    = Ok (Payload_str r ++ nl ++ lit "  code: " ++ hex code
          ++ nl ++ lit "  message: " ++ message)
    /\ (forall p1 p2,
          b0 = x00 -> b1 = x00 -> b2 = x22 -> b3 = x00 ->
          rest = p1 :: p2 :: [x53; x79; x6e; x74; x61; x78; x20;
                              x65; x72; x72; x6f; x72] ->
          code = 0x2200
          /\ message = lit "Syntax error"
          /\ to_str r
             = Ok (Payload_str r ++ nl ++ lit "  code: 0x2200"
                   ++ nl ++ lit "  message: Syntax error")).
Proof.
  intros r b0 b1 b2 b3 rest message Hc Ho Hb Hm u code.
  assert (G : to_str r
              = Ok (Payload_str r ++ nl ++ lit "  code: " ++ hex code
                    ++ nl ++ lit "  message: " ++ message)).
  { unfold to_str. rewrite Hc, Response_str_Error by (rewrite ?Hb; cbn; auto; lia).
    rewrite Hb. cbn [firstn]. change (skipn 6 (b0 :: b1 :: b2 :: b3 :: rest))
      with (skipn 2 rest).
    rewrite Hm, unpack1_int_four. reflexivity. }
  split; [exact G|].
  intros p1 p2 -> -> -> -> ->.
  assert (Hcode : code = 0x2200) by reflexivity.
  assert (Hmsg : message = lit "Syntax error").
  { cbn [skipn] in Hm. apply Ok_inj. rewrite <- Hm. reflexivity. }
  split; [exact Hcode|]. split; [exact Hmsg|].
  rewrite G, Hcode, Hmsg. reflexivity.
Qed.

Lemma Response_str_error_code_message_witness :
  to_str (Response_init 0x84 0 0 OpCode.Error
            [x00; x00; x22; x00; x00; x0c;
             x53; x79; x6e; x74; x61; x78; x20; x65; x72; x72; x6f; x72])
  = Ok (lit "Response:" ++ nl
        ++ lit "  version: 132" ++ nl
        ++ lit "  flags: 0" ++ nl
        ++ lit "  stream: 0" ++ nl
        ++ lit "  opcode: OpCode.Error" ++ nl
        ++ lit "  length: 18" ++ nl
        ++ lit "  code: 0x2200" ++ nl
        ++ lit "  message: Syntax error").
Proof.
  exact (proj1 (Response_str_error_code_message
                  (Response_init 0x84 0 0 OpCode.Error
                     [x00; x00; x22; x00; x00; x0c;
                      x53; x79; x6e; x74; x61; x78; x20; x65; x72; x72; x6f; x72])
                  x00 x00 x22 x00
                  [x00; x0c; x53; x79; x6e; x74; x61; x78; x20; x65; x72; x72; x6f; x72]
                  (lit "Syntax error")
                  eq_refl eq_refl eq_refl eq_refl)).
Defined.

(** C10: the message shown for a [Response] with opcode [Error] is the
    UTF-8 decoding of the body from offset 6 to its end; the two bytes
    at offsets 4 and 5 are never read, so changing them changes
    nothing. *)
Theorem error_message_from_offset_6 :
  forall (r : Payload),
    cls r = ResponseC ->
    opcode r = OpCode.Error ->
    (4 <= List.length (body r))%nat ->
    to_str r
    = (message <- bytes_decode (skipn 6 (body r)) ;;
       Ok (Payload_str r
           ++ nl ++ lit "  code: "
           ++ hex (struct.unpack1 struct.i (firstn 4 (body r)))
           ++ nl ++ lit "  message: " ++ message))
    /\ (forall v f st (h4 : bytes) p1 p2 q1 q2 (m : bytes),
          r = Response_init v f st OpCode.Error (h4 ++ p1 :: p2 :: m) ->
          List.length h4 = 4%nat ->
          to_str (Response_init v f st OpCode.Error (h4 ++ q1 :: q2 :: m))
          = to_str r).
Proof.
  intros r Hc Ho L. split.
  - unfold to_str. rewrite Hc. exact (Response_str_Error r Ho L).
  - intros v f st h4 p1 p2 q1 q2 m -> H4.
    unfold to_str. cbn [Response_init Payload_init cls].
    rewrite !Response_str_Error
      by (cbn [Response_init Payload_init opcode body]; auto;
          rewrite List.length_app; lia).
    cbn [Response_init Payload_init body].
    rewrite !(firstn_prefix 4 h4) by exact H4.
    replace (skipn 6 (h4 ++ q1 :: q2 :: m)) with m.
    2:{ change 6%nat with (2 + 4)%nat. rewrite <- skipn_skipn.
        rewrite (skipn_prefix 4 h4) by exact H4. reflexivity. }
    replace (skipn 6 (h4 ++ p1 :: p2 :: m)) with m.
    2:{ change 6%nat with (2 + 4)%nat. rewrite <- skipn_skipn.
        rewrite (skipn_prefix 4 h4) by exact H4. reflexivity. }
    unfold Payload_str, Response_init, Payload_init.
    cbn [cls version flags stream opcode length].
    rewrite !len_app. unfold len. cbn [List.length]. reflexivity.
Qed.

Lemma error_message_from_offset_6_witness :
  to_str (Response_init 0x84 0 0 OpCode.Error
            [x00; x00; x22; x00; xff; xff;
             x53; x79; x6e; x74; x61; x78; x20; x65; x72; x72; x6f; x72])
  = Ok (lit "Response:" ++ nl
        ++ lit "  version: 132" ++ nl
        ++ lit "  flags: 0" ++ nl
        ++ lit "  stream: 0" ++ nl
        ++ lit "  opcode: OpCode.Error" ++ nl
        ++ lit "  length: 18" ++ nl
        ++ lit "  code: 0x2200" ++ nl
        ++ lit "  message: Syntax error").
Proof.
  refine (eq_trans
            (proj1 (error_message_from_offset_6
                      (Response_init 0x84 0 0 OpCode.Error
                         [x00; x00; x22; x00; xff; xff;
                          x53; x79; x6e; x74; x61; x78; x20; x65; x72; x72; x6f; x72])
                      eq_refl eq_refl _)) _).
  - cbn. lia.
  - reflexivity.
Defined.

(** An [Error] body with fewer than four bytes has no code to show:
    [struct.unpack] raises. *)
Lemma Response_str_short_body (r : Payload) :
  opcode r = OpCode.Error ->
  (List.length (body r) < 4)%nat ->
  Response_str r = Raise struct_error.
Proof.
  intros Ho L. unfold Response_str.
  rewrite Ho, (unpack_int_short _ L). reflexivity.
Qed.

(** * Further properties of the encoders *)

Lemma pack_single (c : struct.code) (v : Z) :
  struct.pack [c] [v]
  = if (struct.lo c <=? v) && (v <=? struct.hi c)
    then Ok (struct.be_bytes (struct.size c) v)
    else Raise struct_error.
Proof.
  cbn [struct.pack]. unfold struct.pack1.
  destruct ((struct.lo c <=? v) && (v <=? struct.hi c)); cbn [bind];
    [rewrite app_nil_r|]; reflexivity.
Qed.

Lemma pack_single_spec (c : struct.code) (v : Z) :
  ((exists bs, struct.pack [c] [v] = Ok bs)
   <-> struct.lo c <= v <= struct.hi c)
  /\ (forall bs, struct.pack [c] [v] = Ok bs ->
      List.length bs = struct.size c /\ struct.unpack [c] bs = Ok [v])
  /\ (forall e, struct.pack [c] [v] = Raise e -> e = struct_error).
Proof.
  split; [|split].
  - rewrite pack_single. split.
    + intros [bs Hb].
      destruct (Z.leb_spec (struct.lo c) v); destruct (Z.leb_spec v (struct.hi c));
        cbn [andb] in Hb; try discriminate. lia.
    + intros R. destruct (Z.leb_spec (struct.lo c) v); [|lia].
      destruct (Z.leb_spec v (struct.hi c)); [|lia]. eexists. reflexivity.
  - intros bs Hb. split.
    + rewrite (struct_facts.pack_length _ _ _ Hb). cbn. lia.
    + exact (struct_facts.unpack_pack _ _ _ Hb).
  - intros e. apply pack_raises_struct_error.
Qed.

(** X1: [byte_to_bytes] succeeds exactly on [0..255] and raises
    [struct.error] elsewhere; its result is one byte that unpacks to the
    value. *)
Theorem byte_to_bytes_roundtrip :
  forall v : Z,
    ((exists bs, byte_to_bytes v = Ok bs) <-> 0 <= v <= 255)
    /\ (forall bs, byte_to_bytes v = Ok bs ->
        List.length bs = 1%nat /\ struct.unpack [struct.B] bs = Ok [v])
    /\ (forall e, byte_to_bytes v = Raise e -> e = struct_error).
Proof. intros v. exact (pack_single_spec struct.B v). Qed.

(** X2: [short_to_bytes] succeeds exactly on [-32768..32767] and raises
    [struct.error] elsewhere; its result is two bytes that unpack, as a
    signed big-endian short, to the value. *)
Theorem short_to_bytes_roundtrip :
  forall v : Z,
    ((exists bs, short_to_bytes v = Ok bs) <-> -32768 <= v <= 32767)
    /\ (forall bs, short_to_bytes v = Ok bs ->
        List.length bs = 2%nat /\ struct.unpack [struct.h] bs = Ok [v])
    /\ (forall e, short_to_bytes v = Raise e -> e = struct_error).
Proof. intros v. exact (pack_single_spec struct.h v). Qed.

(** X3: [int_to_bytes] succeeds exactly on [-2^31..2^31-1] and raises
    [struct.error] elsewhere; its result is four bytes that unpack, as a
    signed big-endian int, to the value. *)
Theorem int_to_bytes_roundtrip :
  forall v : Z,
    ((exists bs, int_to_bytes v = Ok bs) <-> -2147483648 <= v <= 2147483647)
    /\ (forall bs, int_to_bytes v = Ok bs ->
        List.length bs = 4%nat /\ struct.unpack [struct.i] bs = Ok [v])
    /\ (forall e, int_to_bytes v = Raise e -> e = struct_error).
Proof. intros v. exact (pack_single_spec struct.i v). Qed.

(** ** Strings *)


Lemma utf8_encode_char_scalar (c : Z) :
  0 <= c < 0xD800 \/ 0xDFFF < c <= 0x10FFFF ->
  exists b, utf8_encode_char c = Ok b /\ 1 <= len b <= 4.
Proof.
  intros V. unfold utf8_encode_char.
  destruct (Z.ltb_spec c 0); [lia|].
  destruct (Z.ltb_spec c 0x80); [eexists; split; [reflexivity|cbn; lia]|].
  destruct (Z.ltb_spec c 0x800); [eexists; split; [reflexivity|cbn; lia]|].
  destruct (Z.ltb_spec c 0x10000).
  - destruct (Z.leb_spec 0xD800 c); destruct (Z.leb_spec c 0xDFFF);
      cbn [andb]; try lia; eexists; (split; [reflexivity|cbn; lia]).
  - destruct (Z.ltb_spec c 0x110000); [|lia].
    eexists; split; [reflexivity|cbn; lia].
Qed.

Lemma utf8_encode_char_not_scalar (c : Z) :
  ~ (0 <= c < 0xD800 \/ 0xDFFF < c <= 0x10FFFF) ->
  utf8_encode_char c = Raise UnicodeEncodeError.
Proof.
  intros V. unfold utf8_encode_char.
  destruct (Z.ltb_spec c 0); [reflexivity|].
  destruct (Z.ltb_spec c 0x80); [lia|].
  destruct (Z.ltb_spec c 0x800); [lia|].
  destruct (Z.ltb_spec c 0x10000).
  - destruct (Z.leb_spec 0xD800 c); destruct (Z.leb_spec c 0xDFFF);
      cbn [andb]; try lia; reflexivity.
  - destruct (Z.ltb_spec c 0x110000); [lia|reflexivity].
Qed.

Lemma scalar_dec (c : Z) :
  {0 <= c < 0xD800 \/ 0xDFFF < c <= 0x10FFFF}
  + {~ (0 <= c < 0xD800 \/ 0xDFFF < c <= 0x10FFFF)}.
Proof.
  destruct (Z_lt_dec c 0); [right; lia|].
  destruct (Z_lt_dec c 0xD800); [left; lia|].
  destruct (Z_le_dec c 0xDFFF); [right; lia|].
  destruct (Z_le_dec c 0x10FFFF); [left; lia|right; lia].
Qed.

Lemma str_encode_raises (s : str) (e : exn) :
  str_encode s = Raise e ->
  e = UnicodeEncodeError
  /\ Exists (fun c => ~ (0 <= c < 0xD800 \/ 0xDFFF < c <= 0x10FFFF)) s.
Proof.
  induction s as [|c s IH]; [discriminate|].
  cbn [str_encode]. destruct (scalar_dec c) as [V|V].
  - destruct (utf8_encode_char_scalar c V) as (b & -> & _). cbn [bind].
    destruct (str_encode s) as [rest|e'] eqn:Es; cbn [bind]; [discriminate|].
    intros E. injection E as <-. destruct (IH eq_refl) as [-> Hx].
    split; [reflexivity | apply Exists_cons_tl; exact Hx].
  - rewrite (utf8_encode_char_not_scalar c V). cbn [bind].
    intros E. injection E as <-. split; [reflexivity|].
    apply Exists_cons_hd. exact V.
Qed.

Lemma str_encode_bad (s : str) :
  Exists (fun c => ~ (0 <= c < 0xD800 \/ 0xDFFF < c <= 0x10FFFF)) s ->
  str_encode s = Raise UnicodeEncodeError.
Proof.
  induction s as [|c s IH]; intros Hx; [inversion Hx|].
  cbn [str_encode]. destruct (scalar_dec c) as [V|V].
  - destruct (utf8_encode_char_scalar c V) as (b & -> & _). cbn [bind].
    inversion Hx as [? ? Hc|? ? Hs]; subst; [contradiction|].
    rewrite (IH Hs). reflexivity.
  - rewrite (utf8_encode_char_not_scalar c V). reflexivity.
Qed.

Lemma str_encode_len (s : str) (data : bytes) :
  str_encode s = Ok data -> len s <= len data <= 4 * len s.
Proof.
  revert data. induction s as [|c s IH]; intros data.
  - intros E. apply Ok_inj in E. subst data. cbn. lia.
  - cbn [str_encode]. destruct (scalar_dec c) as [V|V].
    + destruct (utf8_encode_char_scalar c V) as (b & -> & Lb). cbn [bind].
      destruct (str_encode s) as [rest|] eqn:Es; cbn [bind]; [|discriminate].
      intros E. apply Ok_inj in E. subst data.
      specialize (IH rest eq_refl). rewrite len_app.
      unfold len in *. cbn [List.length]. lia.
    + rewrite (utf8_encode_char_not_scalar c V). discriminate.
Qed.

(** X4: encoding a string as UTF-8 succeeds exactly when every code
    point is a Unicode scalar value (in range, not a surrogate); the only
    exception is [UnicodeEncodeError]; the encoding has between one and
    four bytes per code point. *)
Theorem str_encode_scalar_values :
  forall s : str,
    ((exists data, str_encode s = Ok data)
     <-> Forall (fun c => 0 <= c < 0xD800 \/ 0xDFFF < c <= 0x10FFFF) s)
    /\ (forall e, str_encode s = Raise e -> e = UnicodeEncodeError)
    /\ (forall data, str_encode s = Ok data ->
        len s <= len data <= 4 * len s).
Proof.
  intros s. split; [|split].
  - split.
    + intros [data E]. apply Forall_forall. intros c Hc.
      destruct (scalar_dec c) as [V|V]; [exact V|].
      assert (Hx : Exists (fun c => ~ (0 <= c < 0xD800 \/ 0xDFFF < c <= 0x10FFFF)) s)
        by (apply Exists_exists; exists c; auto).
      rewrite (str_encode_bad s Hx) in E. discriminate.
    + intros F. destruct (str_encode s) as [data|e] eqn:E; [eauto|].
      destruct (str_encode_raises s e E) as [_ Hx].
      apply Exists_exists in Hx. destruct Hx as (c & Hc & V).
      rewrite Forall_forall in F. elim V. exact (F c Hc).
  - intros e E. exact (proj1 (str_encode_raises s e E)).
  - exact (str_encode_len s).
Qed.

(** X5: a string with a code point that has no UTF-8 encoding (a lone
    surrogate) is rejected by both string encoders with
    [UnicodeEncodeError], whatever its length: the text is encoded before
    the length is packed. *)
Theorem string_encoders_reject_surrogates :
  forall s : str,
    Exists (fun c => ~ (0 <= c < 0xD800 \/ 0xDFFF < c <= 0x10FFFF)) s ->
    shortstr_to_bytes s = Raise UnicodeEncodeError
    /\ longstr_to_bytes s = Raise UnicodeEncodeError.
Proof.
  intros s Hx. unfold shortstr_to_bytes, longstr_to_bytes.
  rewrite (str_encode_bad s Hx). split; reflexivity.
Qed.

Lemma string_encoders_reject_surrogates_witness :
  shortstr_to_bytes (lit "SELECT " ++ [0xD800]) = Raise UnicodeEncodeError
  /\ longstr_to_bytes (lit "SELECT " ++ [0xD800]) = Raise UnicodeEncodeError.
Proof.
  apply string_encoders_reject_surrogates.
  apply Exists_exists. exists 0xD800. split.
  - apply in_or_app. right. left. reflexivity.
  - lia.
Defined.

(** X6: for a string with UTF-8 encoding [data], [longstr_to_bytes]
    fails exactly when [data] has more than 2147483647 bytes, with
    [struct.error]; otherwise the result is a four-byte big-endian count
    of the bytes of [data] followed by [data]. *)
Theorem longstr_to_bytes_spec :
  forall (s : str) (data : bytes),
    str_encode s = Ok data ->
    ((exists e, longstr_to_bytes s = Raise e) <-> 2147483647 < len data)
    /\ (2147483647 < len data -> longstr_to_bytes s = Raise struct_error)
    /\ (len data <= 2147483647 ->
        exists prefix,
          longstr_to_bytes s = Ok (prefix ++ data)
          /\ List.length prefix = 4%nat
          /\ struct.be_value prefix = len data).
Proof.
  intros s data E. pose proof (len_nonneg data) as L0.
  assert (Hok : len data <= 2147483647 ->
                longstr_to_bytes s = Ok (struct.be_bytes 4 (len data) ++ data)).
  { intros L. unfold longstr_to_bytes, int_to_bytes. rewrite E. cbn [bind].
    rewrite pack_single.
    destruct (Z.leb_spec (struct.lo struct.i) (len data)); [|cbn in *; lia].
    destruct (Z.leb_spec (len data) (struct.hi struct.i)); [|cbn in *; lia].
    reflexivity. }
  assert (Hbad : 2147483647 < len data -> longstr_to_bytes s = Raise struct_error).
  { intros L. unfold longstr_to_bytes, int_to_bytes. rewrite E. cbn [bind].
    rewrite pack_single.
    destruct (Z.leb_spec (len data) (struct.hi struct.i)); [cbn in *; lia|].
    rewrite andb_false_r. reflexivity. }
  split; [|split].
  - split.
    + intros [e He]. destruct (Z.lt_ge_cases 2147483647 (len data)) as [L|L]; [exact L|].
      rewrite Hok in He by lia. discriminate.
    + intros L. exists struct_error. exact (Hbad L).
  - exact Hbad.
  - intros L. exists (struct.be_bytes 4 (len data)).
    split; [exact (Hok L)|]. split; [apply struct_facts.length_be_bytes|].
    rewrite struct_facts.be_value_be_bytes. apply Z.mod_small. cbn. lia.
Qed.

Lemma longstr_to_bytes_spec_witness :
  exists prefix,
    longstr_to_bytes (lit "USE x") = Ok (prefix ++ [x55; x53; x45; x20; x78])
    /\ List.length prefix = 4%nat
    /\ struct.be_value prefix = 5.
Proof.
  destruct (longstr_to_bytes_spec (lit "USE x") [x55; x53; x45; x20; x78] eq_refl)
    as (_ & _ & H).
  apply H. cbn. lia.
Defined.

Lemma mk_byte_eq (b : byte) (z : Z) : z = byte_val b -> mk_byte z = b.
Proof. intros ->. apply mk_byte_byte_val. Qed.

Ltac split_tests :=
  repeat (match goal with
          | |- context [Z.eqb ?a ?b] => destruct (Z.eqb_spec a b)
          | |- context [Z.ltb ?a ?b] => destruct (Z.ltb_spec a b)
          | |- context [Z.leb ?a ?b] => destruct (Z.leb_spec a b)
          end;
          cbn [andb]; cbv iota;
          try (exfalso; lia);
          try (let X := fresh in intros X; discriminate X)).

Ltac reencode IH :=
  match goal with
  | |- (s <- bytes_decode ?r ;; _) = Ok _ -> _ =>
      let E := fresh "E" in
      let X := fresh "X" in
      destruct (bytes_decode r) eqn:E; cbn [bind]; [|discriminate];
      intros X; apply Ok_inj in X; subst;
      cbn [str_encode]; rewrite (IH r _ ltac:(cbn [List.length] in *; lia) E);
      unfold utf8_encode_char; settle_tests; cbn [andb bind app];
      repeat f_equal; apply mk_byte_eq; euclid
  end.

Lemma str_encode_bytes_decode_bounded (n : nat) :
  forall (bs : bytes) (s : str),
    (List.length bs <= n)%nat ->
    bytes_decode bs = Ok s -> str_encode s = Ok bs.
Proof.
  induction n as [|n IH]; intros bs s L.
  - destruct bs; [|cbn in L; lia].
    intros E. apply Ok_inj in E. subst s. reflexivity.
  - destruct bs as [|b0 r0].
    { intros E. apply Ok_inj in E. subst s. reflexivity. }
    assert (IH' : forall r s', (List.length r <= n)%nat ->
                               bytes_decode r = Ok s' -> str_encode s' = Ok r)
      by (intros; eapply IH; eauto).
    clear IH. rewrite bytes_decode_cons. cbv zeta.
    unfold is_cont, second_ok.
    pose proof (byte_val_range b0).
    destruct r0 as [|b1 [|b2 [|b3 r3]]];
      try pose proof (byte_val_range b1);
      try pose proof (byte_val_range b2);
      try pose proof (byte_val_range b3);
      split_tests; reencode IH'.
Qed.

(** X7: the UTF-8 decoder and encoder are inverse to each other: a byte
    string decodes to [s] exactly when [s] encodes to that byte string
    (overlong forms, surrogates and truncated sequences do not decode). *)
Theorem bytes_decode_iff_str_encode :
  forall (bs : bytes) (s : str),
    bytes_decode bs = Ok s <-> str_encode s = Ok bs.
Proof.
  intros bs s. split.
  - apply (str_encode_bytes_decode_bounded (List.length bs)). lia.
  - apply bytes_decode_str_encode.
Qed.

(** ** Consistency levels and string maps *)

(** X8: [consistency_to_bytes] never fails: it gives a zero byte followed
    by the code of the level, and different levels give different
    bytes. *)
Theorem consistency_to_bytes_spec :
  forall c : Consistency.t,
    (exists b, consistency_to_bytes c = Ok [x00; b]
               /\ byte_val b = Consistency.value c)
    /\ (forall c', consistency_to_bytes c' = consistency_to_bytes c -> c' = c).
Proof.
  intros c. split.
  - destruct c; eexists; split; reflexivity.
  - intros c'. destruct c; destruct c'; intros E; try reflexivity;
      vm_compute in E; discriminate E.
Qed.

Lemma join_items_app (d1 d2 : dict) :
  join_items (d1 ++ d2)
  = (a <- join_items d1 ;; b <- join_items d2 ;; Ok (a ++ b)).
Proof.
  induction d1 as [|[k v] d1 IH]; cbn [app join_items bind].
  - destruct (join_items d2); reflexivity.
  - destruct (shortstr_to_bytes k); cbn [bind]; [|reflexivity].
    destruct (shortstr_to_bytes v); cbn [bind]; [|reflexivity].
    rewrite IH. destruct (join_items d1); cbn [bind]; [|reflexivity].
    destruct (join_items d2); cbn [bind]; [|reflexivity].
    rewrite !app_assoc. reflexivity.
Qed.

Lemma join_items_entries (d : dict) (out : bytes) :
  join_items d = Ok out
  <-> exists entries,
        Forall2 (fun kv e =>
                   exists kb vb,
                     shortstr_to_bytes (fst kv) = Ok kb
                     /\ shortstr_to_bytes (snd kv) = Ok vb
                     /\ e = kb ++ vb) d entries
        /\ out = List.concat entries.
Proof.
  revert out. induction d as [|[k v] d IH]; intros out; cbn [join_items].
  - split.
    + intros E. apply Ok_inj in E. subst out. exists []. split; [constructor|reflexivity].
    + intros (entries & F & ->). inversion F. reflexivity.
  - split.
    + destruct (shortstr_to_bytes k) as [kb|] eqn:Ek; cbn [bind]; [|discriminate].
      destruct (shortstr_to_bytes v) as [vb|] eqn:Ev; cbn [bind]; [|discriminate].
      destruct (join_items d) as [tl|] eqn:Ed; cbn [bind]; [|discriminate].
      intros E. apply Ok_inj in E. subst out.
      destruct (proj1 (IH tl) eq_refl) as (entries & F & ->).
      exists ((kb ++ vb) :: entries). split; [|reflexivity].
      constructor; [|exact F]. exists kb, vb. auto.
    + intros (entries & F & ->).
      inversion F as [|kv e d' entries' (kb & vb & Ek & Ev & ->) F']; subst.
      cbn [fst snd] in Ek, Ev. rewrite Ek, Ev. cbn [bind].
      rewrite (proj2 (IH (List.concat entries')))
        by (exists entries'; split; [exact F'|reflexivity]).
      reflexivity.
Qed.

(** X9: [strstrmap_to_bytes] returns exactly when the map has at most
    32767 entries and every key and value has a short-string encoding;
    the result is the two-byte big-endian entry count followed, in the
    order of the items, by the encodings of key and value of each
    entry.  With more entries it raises [struct.error] before any string
    is encoded. *)
Theorem strstrmap_to_bytes_layout :
  forall (d : dict),
    (forall out,
        strstrmap_to_bytes d = Ok out
        <-> len d <= 32767
            /\ exists entries,
                 Forall2 (fun kv e =>
                            exists kb vb,
                              shortstr_to_bytes (fst kv) = Ok kb
                              /\ shortstr_to_bytes (snd kv) = Ok vb
                              /\ e = kb ++ vb) d entries
                 /\ out = struct.be_bytes 2 (len d) ++ List.concat entries)
    /\ (32767 < len d -> strstrmap_to_bytes d = Raise struct_error).
Proof.
  intros d. pose proof (len_nonneg d) as L0. split.
  - intros out. unfold strstrmap_to_bytes. split.
    + destruct (Z.le_gt_cases (len d) 32767) as [L|L].
      * rewrite short_to_bytes_in_range by lia. cbn [bind].
        destruct (join_items d) as [items|] eqn:Ed; cbn [bind]; [|discriminate].
        intros E. apply Ok_inj in E. subst out. split; [exact L|].
        destruct (proj1 (join_items_entries d items) Ed) as (entries & F & ->).
        exists entries. auto.
      * rewrite short_to_bytes_out_of_range by lia. discriminate.
    + intros (L & entries & F & ->).
      rewrite short_to_bytes_in_range by lia. cbn [bind].
      rewrite (proj2 (join_items_entries d (List.concat entries)))
        by (exists entries; auto).
      reflexivity.
  - intros L. unfold strstrmap_to_bytes.
    rewrite short_to_bytes_out_of_range by lia. reflexivity.
Qed.

(** * Further properties of frames *)

Lemma Payload_bytes_inv (p : Payload) (out : bytes) :
  Payload_bytes p = Ok out ->
  exists header,
    struct.pack _HEADER_FORMAT
      [version p; flags p; stream p; OpCode.value (opcode p); length p]
    = Ok header
    /\ out = header ++ body p
    /\ List.length header = 9%nat.
Proof.
  unfold Payload_bytes.
  destruct (struct.pack _HEADER_FORMAT _) as [header|] eqn:E; cbn [bind];
    [|discriminate].
  intros X. apply Ok_inj in X. subst out. exists header.
  split; [reflexivity|]. split; [reflexivity|].
  exact (struct_facts.pack_length _ _ _ E).
Qed.

Lemma OpCode_value_range (o : OpCode.t) : 0 <= OpCode.value o <= 255.
Proof. destruct o; cbn; lia. Qed.

(** X10: [bytes(payload)] returns exactly when version and flags are in
    [0..255], the stream in [-32768..32767] and the stored length in the
    signed 32-bit range; otherwise it raises [struct.error].  The frame
    it returns has nine bytes more than the body. *)
Theorem Payload_bytes_succeeds_iff :
  forall p : Payload,
    ((exists out, Payload_bytes p = Ok out)
     <-> 0 <= version p <= 255
         /\ 0 <= flags p <= 255
         /\ -32768 <= stream p <= 32767
         /\ -2147483648 <= length p <= 2147483647)
    /\ (forall e, Payload_bytes p = Raise e -> e = struct_error)
    /\ (forall out, Payload_bytes p = Ok out -> len out = 9 + len (body p)).
Proof.
  intros p. split; [|split].
  - unfold Payload_bytes, _HEADER_FORMAT. cbn [struct.pack]. split.
    + intros [out E]. unfold struct.pack1 in E. cbn [struct.lo struct.hi] in E.
      destruct (Z.leb_spec 0 (version p)); destruct (Z.leb_spec (version p) 255);
        cbn [andb bind] in E; try discriminate E.
      destruct (Z.leb_spec 0 (flags p)); destruct (Z.leb_spec (flags p) 255);
        cbn [andb bind] in E; try discriminate E.
      destruct (Z.leb_spec (-32768) (stream p));
        destruct (Z.leb_spec (stream p) 32767);
        cbn [andb bind] in E; try discriminate E.
      destruct (0 <=? OpCode.value (opcode p)); destruct (OpCode.value (opcode p) <=? 255);
        cbn [andb bind] in E; try discriminate E.
      destruct (Z.leb_spec (-2147483648) (length p));
        destruct (Z.leb_spec (length p) 2147483647);
        cbn [andb bind] in E; try discriminate E.
      lia.
    + intros (Hv & Hf & Hs & Hl). pose proof (OpCode_value_range (opcode p)).
      rewrite !struct_facts.pack1_in_range by (cbn; lia).
      cbn [bind]. eexists. reflexivity.
  - intros e. unfold Payload_bytes.
    destruct (struct.pack _HEADER_FORMAT _) as [header|e'] eqn:E; cbn [bind];
      [discriminate|].
    intros X. injection X as <-. exact (pack_raises_struct_error _ _ _ E).
  - intros out E. destruct (Payload_bytes_inv p out E) as (header & _ & -> & L).
    rewrite len_app. unfold len. rewrite L. lia.
Qed.

Lemma decode_header_Payload_bytes (p : Payload) (out : bytes) :
  Payload_bytes p = Ok out ->
  decode_header (firstn 9 out)
  = Ok (version p, flags p, stream p, opcode p, length p)
  /\ skipn 9 out = body p.
Proof.
  intros E. destruct (Payload_bytes_inv p out E) as (header & Hp & -> & L).
  rewrite (firstn_prefix 9 header (body p) L), (skipn_prefix 9 header (body p) L).
  split; [|reflexivity].
  unfold decode_header. rewrite (struct_facts.unpack_pack _ _ _ Hp).
  cbn [bind]. rewrite of_value_value. reflexivity.
Qed.

(** X11: the first nine bytes of a serialized payload decode, with the
    header decoding of [send_request], to the payload's own version,
    flags, stream, opcode and length, and the rest of the frame is its
    body. *)
Theorem header_roundtrip :
  forall (p : Payload) (out : bytes),
    Payload_bytes p = Ok out ->
    decode_header (firstn 9 out)
    = Ok (version p, flags p, stream p, opcode p, length p)
    /\ skipn 9 out = body p.
Proof. exact decode_header_Payload_bytes. Qed.

Lemma header_roundtrip_witness :
  decode_header
    (firstn 9 [x04; x00; x00; x02; x07; x00; x00; x00; x01; xff])
  = Ok (4, 0, 2, OpCode.Query, 1)
  /\ skipn 9 [x04; x00; x00; x02; x07; x00; x00; x00; x01; xff] = [xff].
Proof.
  exact (header_roundtrip (Payload_init RequestC 4 0 2 OpCode.Query [xff])
           [x04; x00; x00; x02; x07; x00; x00; x00; x01; xff] eq_refl).
Defined.

(** X12: a frame determines the message: two payloads that serialize to
    the same bytes have the same version, flags, stream, opcode, length
    and body. *)
Theorem Payload_bytes_injective :
  forall (p q : Payload) (out : bytes),
    Payload_bytes p = Ok out ->
    Payload_bytes q = Ok out ->
    version p = version q /\ flags p = flags q /\ stream p = stream q
    /\ opcode p = opcode q /\ length p = length q /\ body p = body q.
Proof.
  intros p q out Ep Eq.
  destruct (decode_header_Payload_bytes p out Ep) as [Hp Bp].
  destruct (decode_header_Payload_bytes q out Eq) as [Hq Bq].
  rewrite Hp in Hq. apply Ok_inj in Hq. injection Hq as -> -> -> -> ->.
  rewrite <- Bp, <- Bq. repeat split.
Qed.

Lemma Payload_bytes_injective_witness :
  version (Payload_init RequestC 4 0 2 OpCode.Query [xff])
  = version (Payload_init ResponseC 4 0 2 OpCode.Query [xff])
  /\ flags (Payload_init RequestC 4 0 2 OpCode.Query [xff])
     = flags (Payload_init ResponseC 4 0 2 OpCode.Query [xff])
  /\ stream (Payload_init RequestC 4 0 2 OpCode.Query [xff])
     = stream (Payload_init ResponseC 4 0 2 OpCode.Query [xff])
  /\ opcode (Payload_init RequestC 4 0 2 OpCode.Query [xff])
     = opcode (Payload_init ResponseC 4 0 2 OpCode.Query [xff])
  /\ length (Payload_init RequestC 4 0 2 OpCode.Query [xff])
     = length (Payload_init ResponseC 4 0 2 OpCode.Query [xff])
  /\ body (Payload_init RequestC 4 0 2 OpCode.Query [xff])
     = body (Payload_init ResponseC 4 0 2 OpCode.Query [xff]).
Proof.
  exact (Payload_bytes_injective
           (Payload_init RequestC 4 0 2 OpCode.Query [xff])
           (Payload_init ResponseC 4 0 2 OpCode.Query [xff])
           [x04; x00; x00; x02; x07; x00; x00; x00; x01; xff]
           eq_refl eq_refl).
Defined.

(** * Further properties of the exchange *)

Lemma sock_recv_keeps_sending_side (bufsize : Z) (s : socket) :
  outbox (snd (sock_recv bufsize s)) = outbox s
  /\ send_room (snd (sock_recv bufsize s)) = send_room s.
Proof.
  unfold sock_recv. destruct (bufsize <? 0); [split; reflexivity|].
  destruct (inbox s); split; reflexivity.
Qed.

(** What [send_request] does to the sending side of the socket, however
    it ends. *)
Lemma send_request_sending_side (payload : Payload) (s : socket) :
  match Payload_bytes payload with
  | Ok data =>
      outbox (snd (send_request payload s)) = outbox s ++ taken data s
      /\ send_room (snd (send_request payload s)) = tl (send_room s)
  | Raise e => send_request payload s = (Raise e, s)
  end.
Proof.
  unfold send_request, io_bind, io_lift.
  destruct (Payload_bytes payload) as [data|e]; [|reflexivity].
  unfold sock_send.
  set (s1 := {| outbox := outbox s ++ taken data s;
                send_room := tl (send_room s); inbox := inbox s |}).
  assert (O0 : outbox s1 = outbox s ++ taken data s) by reflexivity.
  assert (R0 : send_room s1 = tl (send_room s)) by reflexivity.
  clearbody s1.
  destruct (sock_recv_keeps_sending_side 9 s1) as [O1 R1].
  destruct (sock_recv 9 s1) as [[header|e] s2]; cbn [snd] in *;
    [|split; congruence].
  destruct (decode_header header) as [[[[[v f] st] o] l]|e]; cbn [snd];
    [|split; congruence].
  destruct (sock_recv_keeps_sending_side l s2) as [O2 R2].
  destruct (sock_recv l s2) as [[b|e] s3]; cbn [snd] in *; split; congruence.
Qed.

(** X13: a request with a header field out of range is never put on the
    wire: [send_request] raises [struct.error] and leaves the socket as
    it was, nothing sent and nothing read. *)
Theorem send_request_unserializable :
  forall (payload : Payload) (s : socket),
    ~ (0 <= version payload <= 255
       /\ 0 <= flags payload <= 255
       /\ -32768 <= stream payload <= 32767
       /\ -2147483648 <= length payload <= 2147483647) ->
    send_request payload s = (Raise struct_error, s).
Proof.
  intros payload s R.
  pose proof (send_request_sending_side payload s) as H.
  destruct (Payload_bytes payload) as [data|e] eqn:E.
  - exfalso. apply R. unfold Payload_bytes, _HEADER_FORMAT in E.
    cbn [struct.pack] in E. unfold struct.pack1 in E.
    cbn [struct.lo struct.hi] in E.
    destruct (Z.leb_spec 0 (version payload));
      destruct (Z.leb_spec (version payload) 255);
      cbn [andb bind] in E; try discriminate E.
    destruct (Z.leb_spec 0 (flags payload));
      destruct (Z.leb_spec (flags payload) 255);
      cbn [andb bind] in E; try discriminate E.
    destruct (Z.leb_spec (-32768) (stream payload));
      destruct (Z.leb_spec (stream payload) 32767);
      cbn [andb bind] in E; try discriminate E.
    destruct (0 <=? OpCode.value (opcode payload));
      destruct (OpCode.value (opcode payload) <=? 255);
      cbn [andb bind] in E; try discriminate E.
    destruct (Z.leb_spec (-2147483648) (length payload));
      destruct (Z.leb_spec (length payload) 2147483647);
      cbn [andb bind] in E; try discriminate E.
    lia.
  - rewrite H. f_equal. f_equal. unfold Payload_bytes in E.
    destruct (struct.pack _HEADER_FORMAT _) as [header|e'] eqn:E';
      cbn [bind] in E; [discriminate E|].
    injection E as <-. exact (pack_raises_struct_error _ _ _ E').
Qed.

Lemma send_request_unserializable_witness :
  send_request
    (fst (Request_init 32768 OpCode.Query []))
    {| outbox := []; send_room := [];
       inbox := [[x84; x00; x00; x00; x02; x00; x00; x00; x00]] |}
  = (Raise struct_error,
     {| outbox := []; send_room := [];
        inbox := [[x84; x00; x00; x00; x02; x00; x00; x00; x00]] |}).
Proof.
  apply send_request_unserializable. cbn. lia.
Defined.

(** X14: a reply header whose length field has its top bit set declares
    a negative length: [send_request] raises [ValueError] without
    building a [Response] ([recv] refuses the negative size, when
    [OpCode] has not already refused the opcode byte). *)
Theorem send_request_negative_length :
  forall (payload : Payload) (data : bytes) (s : socket)
         (b0 b1 b2 b3 b4 b5 b6 b7 b8 : byte) (rest : list bytes),
    Payload_bytes payload = Ok data ->
    inbox s = [b0; b1; b2; b3; b4; b5; b6; b7; b8] :: rest ->
    128 <= byte_val b5 ->
    fst (send_request payload s) = Raise ValueError.
Proof.
  intros payload data s b0 b1 b2 b3 b4 b5 b6 b7 b8 rest Hd Hi H5.
  unfold send_request, io_bind, io_lift. rewrite Hd.
  destruct (sock_send_spec data s) as (s1 & Hs & _ & Hi1). rewrite Hs.
  rewrite Hi in Hi1.
  unfold sock_recv at 1. cbn [Z.ltb Z.compare]. rewrite Hi1.
  change (Z.to_nat 9) with 9%nat. cbn [firstn skipn].
  unfold decode_header. rewrite unpack_header. cbn [bind].
  destruct (OpCode.of_value (byte_val b4)) as [o|e] eqn:Eo; cbn [bind fst].
  - unfold sock_recv.
    assert (N : struct.unpack1 struct.i [b5; b6; b7; b8] < 0).
    { rewrite unpack1_int_four. cbv zeta.
      pose proof (byte_val_range b5). pose proof (byte_val_range b6).
      pose proof (byte_val_range b7). pose proof (byte_val_range b8).
      change (2 ^ 24) with 16777216. change (2 ^ 16) with 65536.
      change (2 ^ 8) with 256. change (2 ^ 31) with 2147483648.
      change (2 ^ 32) with 4294967296.
      destruct (Z.ltb_spec
                  (byte_val b5 * 16777216 + byte_val b6 * 65536
                   + byte_val b7 * 256 + byte_val b8) 2147483648); lia. }
    destruct (Z.ltb_spec (struct.unpack1 struct.i [b5; b6; b7; b8]) 0); [|lia].
    reflexivity.
  - unfold OpCode.of_value in Eo.
    repeat match type of Eo with
           | (if ?c then _ else _) = _ => destruct c; [discriminate Eo|]
           end.
    injection Eo as <-. reflexivity.
Qed.

Lemma send_request_negative_length_witness :
  fst (send_request
         (fst (Request_init initial_stream OpCode.Query []))
         {| outbox := []; send_room := [];
            inbox := [[x84; x00; x00; x00; x08; xff; xff; xff; xff]] |})
  = Raise ValueError.
Proof.
  apply (send_request_negative_length
           (fst (Request_init initial_stream OpCode.Query []))
           [x04; x00; x00; x00; x07; x00; x00; x00; x00]
           _ x84 x00 x00 x00 x08 xff xff xff xff []).
  - reflexivity.
  - reflexivity.
  - cbn. lia.
Defined.

(** X15: when the reply frame, as serialized by the peer from a payload
    with fields [v f st o] and body [b], arrives in one segment followed
    by further bytes, [send_request] returns the [Response] with exactly
    those fields and that body, and the further bytes stay in the socket
    for the next read. *)
Theorem send_request_whole_frame :
  forall (payload : Payload) (data : bytes) (s : socket)
         (k : klass) (v f st : Z) (o : OpCode.t) (b frame extra : bytes)
         (rest : list bytes),
    Payload_bytes payload = Ok data ->
    Payload_bytes (Payload_init k v f st o b) = Ok frame ->
    inbox s = (frame ++ extra) :: rest ->
    fst (send_request payload s) = Ok (Response_init v f st o b)
    /\ (b <> [] ->
        inbox (snd (send_request payload s))
        = match extra with
          | [] => rest
          | _ => extra :: rest
          end).
Proof.
  intros payload data s k v f st o b frame extra rest Hd Hf Hi.
  destruct (Payload_bytes_inv _ _ Hf) as (header & Hp & -> & L9).
  destruct (decode_header_Payload_bytes _ _ Hf) as [Hh _].
  rewrite (firstn_prefix 9 header _ L9) in Hh.
  cbn [Payload_init version flags stream opcode body length] in Hh.
  unfold send_request, io_bind, io_lift. rewrite Hd.
  destruct (sock_send_spec data s) as (s1 & Hs & _ & Hi1). rewrite Hs.
  rewrite Hi in Hi1.
  unfold sock_recv at 1 3. cbn [Z.ltb Z.compare]. rewrite Hi1.
  change (Z.to_nat 9) with 9%nat.
  cbn [Payload_init body]. rewrite <- app_assoc.
  rewrite (firstn_prefix 9 header _ L9), (skipn_prefix 9 header _ L9), Hh.
  pose proof (len_nonneg b) as L0.
  unfold sock_recv. destruct (Z.ltb_spec (len b) 0); [lia|].
  unfold len. rewrite Nat2Z.id.
  destruct (b ++ extra) as [|x tl] eqn:Eb.
  - apply app_eq_nil in Eb. destruct Eb as [-> ->].
    cbn [inbox]. destruct rest as [|seg rest']; cbn [fst snd inbox List.length firstn].
    + split; [reflexivity|]. intros N. contradiction.
    + split; [reflexivity|]. intros N. contradiction.
  - cbn [inbox fst snd]. rewrite <- Eb.
    rewrite (firstn_prefix (List.length b) b extra eq_refl).
    rewrite (skipn_prefix (List.length b) b extra eq_refl).
    split; [reflexivity|]. intros _. destruct extra; reflexivity.
Qed.

Lemma send_request_whole_frame_witness :
  fst (send_request
         (fst (Request_init initial_stream OpCode.Query []))
         {| outbox := []; send_room := [];
            inbox := [[x84; x00; x00; x00; x02; x00; x00; x00; x00] ++ [xaa]] |})
  = Ok (Response_init 0x84 0 0 OpCode.Ready []).
Proof.
  exact (proj1 (send_request_whole_frame
                  (fst (Request_init initial_stream OpCode.Query []))
                  [x04; x00; x00; x00; x07; x00; x00; x00; x00]
                  {| outbox := []; send_room := [];
                     inbox := [[x84; x00; x00; x00; x02; x00; x00; x00; x00] ++ [xaa]] |}
                  ResponseC 0x84 0 0 OpCode.Ready []
                  [x84; x00; x00; x00; x02; x00; x00; x00; x00] [xaa] []
                  eq_refl eq_refl eq_refl)).
Defined.

(** X16: the display form fails only for a [Response] with opcode
    [Error]: with [struct.error] when the body has fewer than four
    bytes, and otherwise with the error of decoding the body from offset
    6 as UTF-8; requests and all other responses always display. *)
Theorem to_str_raises_iff :
  forall (p : Payload) (e : exn),
    to_str p = Raise e
    <-> cls p = ResponseC
        /\ opcode p = OpCode.Error
        /\ (((List.length (body p) < 4)%nat /\ e = struct_error)
            \/ ((4 <= List.length (body p))%nat
                /\ bytes_decode (skipn 6 (body p)) = Raise e)).
Proof.
  intros p e. unfold to_str.
  destruct (cls p) eqn:Hc;
    try (split; [discriminate | intros (X & _); discriminate X]).
  destruct (opcode p) eqn:Ho;
    try (unfold Response_str; rewrite Ho; cbn [bind];
         split; [discriminate | intros (_ & X & _); discriminate X]).
  destruct (Nat.lt_ge_cases (List.length (body p)) 4) as [L|L].
  - rewrite (Response_str_short_body p Ho L). split.
    + intros X. injection X as <-. auto.
    + intros (_ & _ & [[_ ->]|[L' _]]); [reflexivity|lia].
  - rewrite (Response_str_Error p Ho L).
    destruct (bytes_decode (skipn 6 (body p))) as [m|e'] eqn:Em; cbn [bind].
    + split; [discriminate|].
      intros (_ & _ & [[L' _]|[_ X]]); [lia|discriminate X].
    + split.
      * intros X. injection X as <-. auto.
      * intros (_ & _ & [[L' _]|[_ X]]); [lia|]. injection X as <-. reflexivity.
Qed.

(** * Properties of the session driver *)

Lemma to_str_Request (op : OpCode.t) (b : bytes) (c : Z) :
  to_str (fst (Request_init c op b))
  = Ok (Payload_str (fst (Request_init c op b))).
Proof. reflexivity. Qed.

(** The effect of one request-and-exchange statement, however it ends. *)
Lemma exchange_effect (op : OpCode.t) (b : bytes) (w : world) :
  let request := fst (Request_init (current_stream w) op b) in
  let r := exchange op (Ok b) w in
  current_stream (snd r) = current_stream w + 1
  /\ sock (snd r) = snd (send_request request (sock w))
  /\ (forall e, fst r = Raise e ->
      stdout (snd r) = stdout w ++ Payload_str request ++ nl)
  /\ (forall u, fst r = Ok u ->
      exists response shown,
        fst (send_request request (sock w)) = Ok response
        /\ to_str response = Ok shown
        /\ stdout (snd r)
           = stdout w ++ Payload_str request ++ nl ++ shown ++ nl ++ nl).
Proof.
  cbv zeta. unfold exchange. cbn [Request_init fst snd].
  unfold __send_request_with_message.
  change (to_str (Payload_init RequestC 4 0 (current_stream w) op b))
    with (Ok (Payload_str (Payload_init RequestC 4 0 (current_stream w) op b))).
  cbv iota beta. cbn [print sock current_stream stdout].
  destruct (send_request (Payload_init RequestC 4 0 (current_stream w) op b) (sock w))
    as [[response|e] s'] eqn:Es; cbn [fst snd].
  - destruct (to_str response) as [shown'|e] eqn:Et;
      cbn [fst snd print sock current_stream stdout];
      (split; [reflexivity|]); (split; [reflexivity|]); split.
    + intros e X. discriminate X.
    + intros u _. exists response, shown'.
      split; [reflexivity|]. split; [exact Et|].
      rewrite <- !app_assoc. reflexivity.
    + intros e' _. reflexivity.
    + intros u X. discriminate X.
  - (split; [reflexivity|]); (split; [reflexivity|]); split.
    + intros e' _. reflexivity.
    + intros u X. discriminate X.
Qed.

Lemma exchange_Ok_frame (op : OpCode.t) (b : bytes) (w w' : world) (u : unit) :
  exchange op (Ok b) w = (Ok u, w') ->
  send_room (sock w) = [] ->
  exists frame,
    Payload_bytes (fst (Request_init (current_stream w) op b)) = Ok frame
    /\ outbox (sock w') = outbox (sock w) ++ frame
    /\ send_room (sock w') = []
    /\ current_stream w' = current_stream w + 1.
Proof.
  intros Ex Room.
  destruct (exchange_effect op b w) as (Hc & Hs & _ & Hok).
  rewrite Ex in Hc, Hs, Hok. cbn [fst snd] in Hc, Hs, Hok.
  destruct (Hok u eq_refl) as (response & _ & Hr & _).
  pose proof (send_request_sending_side
                (fst (Request_init (current_stream w) op b)) (sock w)) as Side.
  destruct (Payload_bytes (fst (Request_init (current_stream w) op b)))
    as [frame|e].
  - destruct Side as [So Sr]. exists frame. rewrite Hs, So, Sr.
    unfold taken. rewrite Room. auto.
  - rewrite Side in Hr. discriminate Hr.
Qed.

Lemma prompt_loop_returned_frames :
  forall (lines : list str) (w w' : world),
    prompt_loop lines w = (Returned, w') ->
    send_room (sock w) = [] ->
    exists sent q rest frames,
      lines = sent ++ q :: rest
      /\ startswith_q q = true
      /\ Forall (fun l => startswith_q l = false) sent
      /\ List.length frames = List.length sent
      /\ (forall n, (n < List.length sent)%nat ->
            exists b,
              query_body (nth n sent []) = Ok b
              /\ Payload_bytes
                   (fst (Request_init (current_stream w + Z.of_nat n)
                           OpCode.Query b))
                 = Ok (nth n frames []))
      /\ outbox (sock w') = outbox (sock w) ++ List.concat frames
      /\ send_room (sock w') = []
      /\ current_stream w' = current_stream w + len sent.
Proof.
  induction lines as [|query lines IH]; intros w w'; cbn [prompt_loop].
  - discriminate.
  - destruct (startswith_q query) eqn:Q.
    + intros E Room. injection E as <-.
      exists [], query, lines, []. cbn [app List.length List.concat print sock].
      rewrite app_nil_r.
      repeat split; auto; try (cbn; lia);
        try (intros n Hn; cbn in Hn; lia).
    + destruct (query_body query) as [b|e] eqn:Eb; [|discriminate].
      destruct (exchange OpCode.Query (Ok b) (print (lit "CQL > ") [] w))
        as [[u|e] w1] eqn:Ex; [|discriminate].
      intros E Room.
      destruct (exchange_Ok_frame _ _ _ _ _ Ex Room)
        as (frame & Hf & Ho & Hr & Hc).
      cbn [print sock current_stream] in Hf, Ho, Hc.
      destruct (IH w1 w' E Hr)
        as (sent & q & rest & frames & -> & Hq & Hs & Hl & Hn & Ho' & Hr' & Hc').
      exists (query :: sent), q, rest, (frame :: frames).
      split; [reflexivity|]. split; [exact Hq|].
      split; [constructor; assumption|].
      split; [cbn [List.length]; congruence|].
      split; [|split; [|split]].
      * intros [|n] Ln; cbn [nth].
        -- exists b. split; [exact Eb|].
           replace (current_stream w + Z.of_nat 0) with (current_stream w) by lia.
           exact Hf.
        -- cbn [List.length] in Ln.
           destruct (Hn n ltac:(lia)) as (b' & Hb' & Hf').
           exists b'. split; [exact Hb'|].
           replace (current_stream w + Z.of_nat (S n))
             with (current_stream w1 + Z.of_nat n) by lia.
           exact Hf'.
      * rewrite Ho', Ho. cbn [List.concat]. rewrite app_assoc. reflexivity.
      * exact Hr'.
      * rewrite Hc', Hc. unfold len. cbn [List.length]. lia.
Qed.

(** X17: when the prompt loop ends normally, some typed line began with
    [q]; every line before it was sent, in order, as one Query frame
    whose body is the long string of the line, consistency [One] and a
    zero flags byte, with consecutive stream ids starting at the current
    counter; nothing else was sent, and the counter has advanced by the
    number of lines sent. *)
Theorem prompt_loop_sends_typed_lines :
  forall (lines : list str) (w w' : world),
    prompt_loop lines w = (Returned, w') ->
    send_room (sock w) = [] ->
    exists sent q rest frames,
      lines = sent ++ q :: rest
      /\ startswith_q q = true
      /\ Forall (fun l => startswith_q l = false) sent
      /\ List.length frames = List.length sent
      /\ (forall n, (n < List.length sent)%nat ->
            exists b,
              query_body (nth n sent []) = Ok b
              /\ Payload_bytes
                   (fst (Request_init (current_stream w + Z.of_nat n)
                           OpCode.Query b))
                 = Ok (nth n frames []))
      /\ outbox (sock w') = outbox (sock w) ++ List.concat frames
      /\ send_room (sock w') = []
      /\ current_stream w' = current_stream w + len sent.
Proof. exact prompt_loop_returned_frames. Qed.

(** X18: lines typed after the first line that begins with [q] are
    never read: the loop runs as if they were not there. *)
Theorem prompt_loop_stops_at_quit :
  forall (before : list str) (q : str) (after : list str) (w : world),
    startswith_q q = true ->
    prompt_loop (before ++ q :: after) w = prompt_loop (before ++ [q]) w.
Proof.
  induction before as [|l before IH]; intros q after w Q; cbn [app prompt_loop].
  - rewrite Q. reflexivity.
  - destruct (startswith_q l); [reflexivity|].
    destruct (exchange OpCode.Query (query_body l) (print (lit "CQL > ") [] w))
      as [[u|e] w1]; [|reflexivity].
    apply IH. exact Q.
Qed.

(** X19: without a line that begins with [q] the loop never ends
    normally: it ends with an exception of an exchange or with
    [EOFError] at the prompt. *)
Theorem prompt_loop_needs_quit :
  forall (lines : list str) (w : world),
    Forall (fun l => startswith_q l = false) lines ->
    fst (prompt_loop lines w) <> Returned.
Proof.
  induction lines as [|l lines IH]; intros w F; cbn [prompt_loop].
  - discriminate.
  - inversion F as [|? ? Hl Hr]; subst. rewrite Hl.
    destruct (exchange OpCode.Query (query_body l) (print (lit "CQL > ") [] w))
      as [[u|e] w1]; [apply IH; exact Hr | discriminate].
Qed.

(** X20: constructing a request consumes its stream id and the request is
    printed before anything is sent: whatever the outcome of the
    exchange, the counter has advanced by one and standard output has
    grown by the display form of the request; on failure nothing more is
    printed, on success the display form of the response and an empty
    line follow. *)
Theorem exchange_consumes_stream_id :
  forall (op : OpCode.t) (b : bytes) (w : world),
    let request := fst (Request_init (current_stream w) op b) in
    let r := exchange op (Ok b) w in
    current_stream (snd r) = current_stream w + 1
    /\ sock (snd r) = snd (send_request request (sock w))
    /\ (forall e, fst r = Raise e ->
        stdout (snd r) = stdout w ++ Payload_str request ++ nl)
    /\ (forall u, fst r = Ok u ->
        exists response shown,
          fst (send_request request (sock w)) = Ok response
          /\ to_str response = Ok shown
          /\ stdout (snd r)
             = stdout w ++ Payload_str request ++ nl ++ shown ++ nl ++ nl).
Proof. exact exchange_effect. Qed.

Lemma prompt_loop_sends_typed_lines_witness :
  exists sent q rest frames,
    [lit "USE x"; lit "quit"; lit "USE y"] = sent ++ q :: rest
    /\ startswith_q q = true
    /\ Forall (fun l => startswith_q l = false) sent
    /\ List.length frames = List.length sent
    /\ (forall n, (n < List.length sent)%nat ->
          exists b,
            query_body (nth n sent []) = Ok b
            /\ Payload_bytes
                 (fst (Request_init (3 + Z.of_nat n) OpCode.Query b))
               = Ok (nth n frames []))
    /\ outbox (sock (snd (prompt_loop [lit "USE x"; lit "quit"; lit "USE y"]
                            {| sock := {| outbox := []; send_room := [];
                                          inbox := [[x84; x00; x00; x00; x02;
                                                     x00; x00; x00; x00]] |};
                               current_stream := 3; stdout := [] |})))
       = [] ++ List.concat frames
    /\ send_room (sock (snd (prompt_loop [lit "USE x"; lit "quit"; lit "USE y"]
                               {| sock := {| outbox := []; send_room := [];
                                             inbox := [[x84; x00; x00; x00; x02;
                                                        x00; x00; x00; x00]] |};
                                  current_stream := 3; stdout := [] |})))
       = []
    /\ current_stream (snd (prompt_loop [lit "USE x"; lit "quit"; lit "USE y"]
                              {| sock := {| outbox := []; send_room := [];
                                            inbox := [[x84; x00; x00; x00; x02;
                                                       x00; x00; x00; x00]] |};
                                 current_stream := 3; stdout := [] |}))
       = 3 + len sent.
Proof.
  apply (prompt_loop_sends_typed_lines
           [lit "USE x"; lit "quit"; lit "USE y"]
           {| sock := {| outbox := []; send_room := [];
                         inbox := [[x84; x00; x00; x00; x02;
                                    x00; x00; x00; x00]] |};
              current_stream := 3; stdout := [] |}).
  - vm_compute. reflexivity.
  - reflexivity.
Defined.

Lemma prompt_loop_stops_at_quit_witness :
  prompt_loop ([lit "USE x"] ++ lit "quit" :: [lit "USE y"])
    {| sock := {| outbox := []; send_room := []; inbox := [] |};
       current_stream := 3; stdout := [] |}
  = prompt_loop ([lit "USE x"] ++ [lit "quit"])
      {| sock := {| outbox := []; send_room := []; inbox := [] |};
         current_stream := 3; stdout := [] |}.
Proof.
  apply prompt_loop_stops_at_quit. reflexivity.
Defined.

Lemma prompt_loop_needs_quit_witness :
  fst (prompt_loop [lit "USE x"; lit "SELECT 1"]
         {| sock := {| outbox := []; send_room := []; inbox := [] |};
            current_stream := 3; stdout := [] |})
  <> Returned.
Proof.
  apply prompt_loop_needs_quit.
  repeat constructor.
Defined.

(** X21: the body of every query request is the four-byte big-endian
    byte count of the UTF-8 text, the text, the consistency level [One]
    as [00 01] and the flags byte [00]: seven bytes more than the
    text. *)
Theorem query_body_layout :
  forall (query : str) (data : bytes),
    str_encode query = Ok data ->
    len data <= 2147483647 ->
    exists prefix,
      query_body query = Ok (prefix ++ data ++ [x00; x01; x00])
      /\ List.length prefix = 4%nat
      /\ struct.be_value prefix = len data.
Proof.
  intros query data E L. pose proof (len_nonneg data) as L0.
  exists (struct.be_bytes 4 (len data)). split; [|split].
  - unfold query_body, longstr_to_bytes, int_to_bytes. rewrite E. cbn [bind].
    rewrite pack_single.
    destruct (Z.leb_spec (struct.lo struct.i) (len data)); [|cbn in *; lia].
    destruct (Z.leb_spec (len data) (struct.hi struct.i)); [|cbn in *; lia].
    cbn [andb bind].
    change (consistency_to_bytes Consistency.One) with (Ok [x00; x01]).
    change (byte_to_bytes 0) with (Ok [x00]). cbn [bind].
    rewrite <- !app_assoc. reflexivity.
  - apply struct_facts.length_be_bytes.
  - rewrite struct_facts.be_value_be_bytes. apply Z.mod_small. cbn. lia.
Qed.

Lemma query_body_layout_witness :
  exists prefix,
    query_body (lit "USE x")
    = Ok (prefix ++ [x55; x53; x45; x20; x78] ++ [x00; x01; x00])
    /\ List.length prefix = 4%nat
    /\ struct.be_value prefix = 5.
Proof.
  apply (query_body_layout (lit "USE x") [x55; x53; x45; x20; x78]).
  - reflexivity.
  - cbn. lia.
Defined.

(** X22: when [main] ends normally on a fresh counter, what it has sent
    is the Startup frame with stream 0, the two fixed queries with
    streams 1 and 2, and then one Query frame per line typed before the
    quitting line, in order, with streams 3, 4, ...; the counter ends at
    three plus the number of lines sent. *)
Theorem main_stream_ids :
  forall (lines : list str) (w w' : world),
    main lines w = (Returned, w') ->
    send_room (sock w) = [] ->
    current_stream w = initial_stream ->
    exists f0 b1 f1 b2 f2 sent q rest frames,
      (p <- startup ;; Payload_bytes (fst p)) = Ok f0
      /\ query_body (lit "SELECT * FROM system.local") = Ok b1
      /\ Payload_bytes (fst (Request_init 1 OpCode.Query b1)) = Ok f1
      /\ query_body (lit "SELECT * FROM system.peers") = Ok b2
      /\ Payload_bytes (fst (Request_init 2 OpCode.Query b2)) = Ok f2
      /\ lines = sent ++ q :: rest
      /\ startswith_q q = true
      /\ Forall (fun l => startswith_q l = false) sent
      /\ List.length frames = List.length sent
      /\ (forall n, (n < List.length sent)%nat ->
            exists b,
              query_body (nth n sent []) = Ok b
              /\ Payload_bytes
                   (fst (Request_init (3 + Z.of_nat n) OpCode.Query b))
                 = Ok (nth n frames []))
      /\ outbox (sock w')
         = outbox (sock w) ++ f0 ++ f1 ++ f2 ++ List.concat frames
      /\ current_stream w' = 3 + len sent.
Proof.
  intros lines w w' M Room C0. unfold main in M.
  destruct startup_body as [b0|e0] eqn:E0; [|discriminate M].
  destruct (exchange OpCode.Startup (Ok b0) w) as [[u0|e] w1] eqn:X0;
    [|discriminate M].
  destruct (query_body (lit "SELECT * FROM system.local")) as [b1|e1] eqn:E1;
    [|discriminate M].
  destruct (exchange OpCode.Query (Ok b1) w1) as [[u1|e] w2] eqn:X1;
    [|discriminate M].
  destruct (query_body (lit "SELECT * FROM system.peers")) as [b2|e2] eqn:E2;
    [|discriminate M].
  destruct (exchange OpCode.Query (Ok b2) w2) as [[u2|e] w3] eqn:X2;
    [|discriminate M].
  destruct (exchange_Ok_frame _ _ _ _ _ X0 Room) as (f0 & F0 & O0 & R0 & S0).
  destruct (exchange_Ok_frame _ _ _ _ _ X1 R0) as (f1 & F1 & O1 & R1 & S1).
  destruct (exchange_Ok_frame _ _ _ _ _ X2 R1) as (f2 & F2 & O2 & R2 & S2).
  destruct (prompt_loop_returned_frames lines w3 w' M R2)
    as (sent & q & rest & frames & Hl & Hq & Hs & Hlen & Hn & Ho & _ & Hc).
  rewrite C0 in F0, S0. unfold initial_stream in S0.
  rewrite S0 in F1, S1. cbn in S1. rewrite S1 in F2, S2. cbn in S2.
  cbn [Z.add Pos.add] in F1.
  exists f0, b1, f1, b2, f2, sent, q, rest, frames.
  split; [unfold startup; rewrite E0; exact F0|].
  split; [reflexivity|]. split; [exact F1|].
  split; [reflexivity|]. split; [exact F2|].
  split; [exact Hl|]. split; [exact Hq|]. split; [exact Hs|].
  split; [exact Hlen|]. split; [|split].
  - intros n Ln. destruct (Hn n Ln) as (b & Hb & Hf).
    exists b. split; [exact Hb|]. rewrite S2 in Hf. exact Hf.
  - rewrite Ho, O2, O1, O0. rewrite <- !app_assoc. reflexivity.
  - rewrite Hc, S2. reflexivity.
Qed.

Lemma main_stream_ids_witness :
  exists sent : list str,
    current_stream
      (snd (main [lit "quit"]
              {| sock := {| outbox := []; send_room := [];
                            inbox := [[x84; x00; x00; x00; x02; x00; x00; x00; x00];
                                      [x84; x00; x00; x01; x02; x00; x00; x00; x00];
                                      [x84; x00; x00; x02; x02; x00; x00; x00; x00]] |};
                 current_stream := 0; stdout := [] |}))
    = 3 + len sent.
Proof.
  destruct (main_stream_ids
              [lit "quit"]
              {| sock := {| outbox := []; send_room := [];
                            inbox := [[x84; x00; x00; x00; x02; x00; x00; x00; x00];
                                      [x84; x00; x00; x01; x02; x00; x00; x00; x00];
                                      [x84; x00; x00; x02; x02; x00; x00; x00; x00]] |};
                 current_stream := 0; stdout := [] |}
              (snd (main [lit "quit"]
                      {| sock := {| outbox := []; send_room := [];
                                    inbox := [[x84; x00; x00; x00; x02; x00; x00; x00; x00];
                                              [x84; x00; x00; x01; x02; x00; x00; x00; x00];
                                              [x84; x00; x00; x02; x02; x00; x00; x00; x00]] |};
                         current_stream := 0; stdout := [] |})))
    as (f0 & b1 & f1 & b2 & f2 & sent & q & rest & frames & H).
  - vm_compute. reflexivity.
  - reflexivity.
  - reflexivity.
  - exists sent. apply H.
Defined.

(** X23: every text of at most 8191 code points, none of them a
    surrogate or out of range, has a short-string encoding, of at most
    two bytes plus four per code point. *)
Theorem shortstr_to_bytes_accepts_short_text :
  forall s : str,
    Forall (fun c => 0 <= c < 0xD800 \/ 0xDFFF < c <= 0x10FFFF) s ->
    len s <= 8191 ->
    exists out, shortstr_to_bytes s = Ok out /\ len out <= 2 + 4 * len s.
Proof.
  intros s F L.
  destruct (str_encode s) as [data|e] eqn:E.
  - pose proof (str_encode_len s data E) as Ld.
    exists (struct.be_bytes 2 (len data) ++ data). split.
    + apply (shortstr_to_bytes_ok s data E). lia.
    + rewrite len_app. unfold len at 1.
      rewrite struct_facts.length_be_bytes. lia.
  - destruct (str_encode_raises s e E) as [_ Hx].
    apply Exists_exists in Hx. destruct Hx as (c & Hc & V).
    rewrite Forall_forall in F. elim V. exact (F c Hc).
Qed.

Lemma shortstr_to_bytes_accepts_short_text_witness :
  exists out,
    shortstr_to_bytes (lit "CQL_VERSION") = Ok out
    /\ len out <= 2 + 4 * len (lit "CQL_VERSION").
Proof.
  apply shortstr_to_bytes_accepts_short_text.
  - repeat constructor; cbn; lia.
  - cbn. lia.
Defined.
